(** * no-use-before-define: the classification and traversal core

    A shallow embedding of [lib/rules/no-use-before-define.js].  The rule
    reads an already built scope graph (scopes, variables, references) and
    the position ranges of syntax nodes, and hands diagnostics to a sink.

    - Objects are records; an object that the code compares with [===]
      carries an identity ([Scope.id]), and [===] is equality of identities.
    - [parent] back-references are part of the node, so that an ancestor
      chain is a finite value.
    - A property read on [undefined] or [null] raises [TypeError]; functions
      that can do so return a [completion].
    - [context.report] appends to the sink; the walk is a state-passing
      computation over the sink that stops at the first exception. *)

From Stdlib Require Import ZArith String List Lia.
From stdpp Require Import base option list strings gmap.

#[local] Set Warnings "-register-all".

Local Open Scope string_scope.
Local Open Scope Z_scope.
Local Open Scope list_scope.

(** ** Completions: a normal result or a thrown exception *)

Inductive exn := TypeError.

Inductive completion (A : Type) :=
| Return (a : A)
| Throw (e : exn).
Arguments Return {A} a.
Arguments Throw {A} e.

Definition bindC {A B} (c : completion A) (k : A -> completion B) : completion B :=
  match c with
  | Return a => k a
  | Throw e => Throw e
  end.

Notation "x <- c ;; k" := (bindC c (fun x => k))
  (at level 100, c at next level, right associativity, only parsing).

(** ** Values handed to [parseOptions] ([@param {any} options]) *)

Inductive JsValue :=
| JsUndefined
| JsNull
| JsBoolean (b : bool)
| JsNumber (z : Z)
| JsString (s : string)
| JsArray (items : list JsValue) (props : gmap string JsValue)
| JsObject (props : gmap string JsValue).

(** [typeof v]; [null] is an "object". *)
Definition typeof (v : JsValue) : string :=
  match v with
  | JsUndefined => "undefined"
  | JsNull => "object"
  | JsBoolean _ => "boolean"
  | JsNumber _ => "number"
  | JsString _ => "string"
  | JsArray _ _ => "object"
  | JsObject _ => "object"
  end.

(** [o.key] for a property name that is no array index.  [props] holds
    what a property read yields on the object, by name: its own named
    properties and those it inherits; an array is an object that may
    carry such properties beside its items.  A name without a property
    reads as [undefined]; a read on a primitive is not made by the rule. *)
Definition getProp (o : JsValue) (key : string) : JsValue :=
  match o with
  | JsObject props => default JsUndefined (props !! key)
  | JsArray _ props => default JsUndefined (props !! key)
  | _ => JsUndefined
  end.

(** [v !== false] *)
Definition isNotFalse (v : JsValue) : bool :=
  match v with
  | JsBoolean false => false
  | _ => true
  end.

(** [options !== null] *)
Definition isNotNull (v : JsValue) : bool :=
  match v with
  | JsNull => false
  | _ => true
  end.

(** [options !== "nofunc"], evaluated where [typeof options === "string"] *)
Definition isNotString (v : JsValue) (lit : string) : bool :=
  match v with
  | JsString s => negb (String.eqb s lit)
  | _ => true
  end.

Record Options := mkOptions {
  functions : bool;
  classes : bool;
  variables : bool;
  typedefs : bool
}.

Definition parseOptions (options : JsValue) : Options :=
  if String.eqb (typeof options) "string" then
    {| functions := isNotString options "nofunc";
       classes := true; variables := true; typedefs := true |}
  else if String.eqb (typeof options) "object" && isNotNull options then
    {| functions := isNotFalse (getProp options "functions");
       classes := isNotFalse (getProp options "classes");
       variables := isNotFalse (getProp options "variables");
       typedefs := isNotFalse (getProp options "typedefs") |}
  else
    {| functions := true; classes := true; variables := true; typedefs := true |}.

(** ** The syntax tree and the scope graph *)

Module Node.
(** A syntax node, with the fields the rule reads.  [init] and [right]
    are [None] where the node has no such child (or it is [null]). *)
Inductive t := mk {
  type : string;
  range : Z * Z;
  parent : option t;
  init : option t;
  right : option t;
  kind : option string;
  name : option string
}.
End Node.

Module Scope.
(** A scope object as seen through a reference to it: its identity and
    its [type]. *)
Record obj := mkObj {
  id : nat;
  type : string
}.

(** [scope.variableScope] is again a scope object. *)
Record ref := mkRef {
  self : obj;
  variableScope : obj
}.

(** [a === b] on scope objects *)
Definition same (a b : obj) : bool := Nat.eqb (id a) (id b).
End Scope.

Module Def.
Record t := mk {
  type : string;
  parent : option Node.t
}.
End Def.

Module Var.
Record t := mk {
  defs : list Def.t;
  identifiers : list Node.t;
  scope : Scope.ref
}.
End Var.

Module Reference.
Record t := mk {
  identifier : Node.t;
  resolved : option Var.t;
  init : bool;
  from : Scope.ref
}.
End Reference.

Module ScopeTree.
(** The scope tree the walk descends. *)
Inductive t := mk {
  this : Scope.ref;
  references : list Reference.t;
  childScopes : list t
}.
End ScopeTree.

(** ** Helpers *)

(** [SENTINEL_TYPE.test(s)]: the anchored alternation
    [(Function|Class)(Declaration|Expression)|ArrowFunctionExpression|
     CatchClause|ImportDeclaration|ExportNamedDeclaration]. *)
Definition SENTINEL_TYPE (s : string) : bool :=
  String.eqb s "FunctionDeclaration" || String.eqb s "FunctionExpression"
  || String.eqb s "ClassDeclaration" || String.eqb s "ClassExpression"
  || String.eqb s "ArrowFunctionExpression" || String.eqb s "CatchClause"
  || String.eqb s "ImportDeclaration" || String.eqb s "ExportNamedDeclaration".

(** [FOR_IN_OF_TYPE.test(s)]: [^For(?:In|Of)Statement$]. *)
Definition FOR_IN_OF_TYPE (s : string) : bool :=
  String.eqb s "ForInStatement" || String.eqb s "ForOfStatement".

Definition isTopLevelScope (scope : Scope.obj) : bool :=
  String.eqb (Scope.type scope) "module" || String.eqb (Scope.type scope) "global".

(** [variable.defs[0]] followed by a property read: [defs[0]] is
    [undefined] on an empty array, and the read throws. *)
Definition firstDef (variable : Var.t) : completion Def.t :=
  match Var.defs variable with
  | d :: _ => Return d
  | [] => Throw TypeError
  end.

Definition isFunction (variable : Var.t) : completion bool :=
  d <- firstDef variable ;;
  Return (String.eqb (Def.type d) "FunctionName").

(** The same-scope test shared by [isOuterClass] and [isOuterVariable]:
    [false] when both variable scopes are one object that is not top level. *)
Definition outerOrTopLevel (variable : Var.t) (reference : Reference.t) : bool :=
  if Scope.same (Scope.variableScope (Var.scope variable))
                (Scope.variableScope (Reference.from reference))
  then
    if negb (isTopLevelScope (Scope.variableScope (Var.scope variable)))
    then false
    else true
  else true.

Definition isOuterClass (variable : Var.t) (reference : Reference.t) : completion bool :=
  d <- firstDef variable ;;
  if negb (String.eqb (Def.type d) "ClassName") then Return false
  else Return (outerOrTopLevel variable reference).

Definition isOuterVariable (variable : Var.t) (reference : Reference.t) : completion bool :=
  d <- firstDef variable ;;
  if negb (String.eqb (Def.type d) "Variable") then Return false
  else Return (outerOrTopLevel variable reference).

(** [o.kind === "type"] *)
Definition kindIsType (n : Node.t) : bool :=
  match Node.kind n with
  | Some k => String.eqb k "type"
  | None => false
  end.

(** [defs[0].parent.kind] is read only when the first conjunct holds. *)
Definition isType (variable : Var.t) : completion bool :=
  d <- firstDef variable ;;
  if String.eqb (Def.type d) "Variable" then
    match Def.parent d with
    | Some p => Return (kindIsType p)
    | None => Throw TypeError
    end
  else Return false.

(** [node && node.range[0] <= location && location <= node.range[1]].
    On a missing node the source yields the falsy [node] itself; the result
    is only ever used as a condition, and the embedding gives its truth
    value. *)
Definition isInRange (node : option Node.t) (location : Z) : bool :=
  match node with
  | None => false
  | Some n => (fst (Node.range n) <=? location) && (location <=? snd (Node.range n))
  end.

(** The [while (node)] loop of [isInInitializer], by recursion on the
    ancestor chain.  [node.parent.parent.type] throws when the declarator
    has no parent or no grandparent. *)
Fixpoint initializerLoop (location : Z) (node : Node.t) {struct node} : completion bool :=
  if String.eqb (Node.type node) "VariableDeclarator" then
    if isInRange (Node.init node) location then Return true
    else
      match Node.parent node with
      | None => Throw TypeError
      | Some p =>
          match Node.parent p with
          | None => Throw TypeError
          | Some g =>
              if FOR_IN_OF_TYPE (Node.type g) && isInRange (Node.right g) location
              then Return true
              else Return false
          end
      end
  else
    (* [node = node.parent], then the loop test *)
    let next :=
      match Node.parent node with
      | None => Return false
      | Some p => initializerLoop location p
      end in
    if String.eqb (Node.type node) "AssignmentPattern" then
      if isInRange (Node.right node) location then Return true else next
    else if SENTINEL_TYPE (Node.type node) then Return false
    else next.

Definition isInInitializer (variable : Var.t) (reference : Reference.t) : completion bool :=
  if negb (Scope.same (Scope.self (Var.scope variable))
                      (Scope.self (Reference.from reference)))
  then Return false
  else
    match Var.identifiers variable with
    | [] => Throw TypeError
    | id0 :: _ =>
        let location := snd (Node.range (Reference.identifier reference)) in
        match Node.parent id0 with
        | None => Return false
        | Some node => initializerLoop location node
        end
    end.

Definition isForbidden (options : Options) (variable : Var.t) (reference : Reference.t)
  : completion bool :=
  f <- isFunction variable ;;
  if f then Return (functions options) else
  c <- isOuterClass variable reference ;;
  if c then Return (classes options) else
  t <- isType variable ;;
  if t && negb (typedefs options) then Return false else
  v <- isOuterVariable variable reference ;;
  if v then Return (variables options) else
  Return true.

(** ** The diagnostic sink and the walk *)

Record Diagnostic := mkDiagnostic {
  node : Node.t;
  message : string;
  data : Node.t
}.

(** A computation that may call [context.report] and may throw: it takes
    the diagnostics reported so far and returns its completion with the
    diagnostics reported by then. *)
Definition Report (A : Type) : Type := list Diagnostic -> completion A * list Diagnostic.

Definition ret {A} (a : A) : Report A := fun sink => (Return a, sink).

Definition bindR {A B} (m : Report A) (k : A -> Report B) : Report B :=
  fun sink =>
    match m sink with
    | (Return a, sink') => k a sink'
    | (Throw e, sink') => (Throw e, sink')
    end.

(** A pure, possibly throwing, evaluation inside a reporting computation. *)
Definition lift {A} (c : completion A) : Report A := fun sink => (c, sink).

(** [context.report(d)] *)
Definition report (d : Diagnostic) : Report unit := fun sink => (Return tt, sink ++ [d]).

Notation "x <~ m ;; k" := (bindR m (fun x => k))
  (at level 100, m at next level, right associativity, only parsing).

Section ForEach.
Context {A : Type} (callback : A -> Report unit).

(** [array.forEach(callback)] *)
Fixpoint forEach (array : list A) : Report unit :=
  match array with
  | [] => ret tt
  | x :: rest => _ <~ callback x ;; forEach rest
  end.
End ForEach.

Definition usedBeforeDefined : string := "'{{name}}' was used before it was defined.".

(** The condition under which the callback returns without reporting,
    with the short circuits of [||] and [&&]. *)
Definition skips (options : Options) (reference : Reference.t) : completion bool :=
  if Reference.init reference then Return true else
  match Reference.resolved reference with
  | None => Return true
  | Some variable =>
      match Var.identifiers variable with
      | [] => Return true
      | id0 :: _ =>
          precedes <-
            (if snd (Node.range id0) <? snd (Node.range (Reference.identifier reference))
             then b <- isInInitializer variable reference ;; Return (negb b)
             else Return false) ;;
          if precedes then Return true else
          f <- isForbidden options variable reference ;;
          Return (negb f)
      end
  end.

(** The callback given to [scope.references.forEach]. *)
Definition visitReference (options : Options) (reference : Reference.t) : Report unit :=
  skip <~ lift (skips options reference) ;;
  if skip then ret tt
  else
    report {| node := Reference.identifier reference;
              message := usedBeforeDefined;
              data := Reference.identifier reference |}.

Fixpoint findVariablesInScope (options : Options) (scope : ScopeTree.t) {struct scope}
  : Report unit :=
  _ <~ forEach (visitReference options) (ScopeTree.references scope) ;;
  forEach (findVariablesInScope options) (ScopeTree.childScopes scope).

(** ** Vocabulary of the specification *)

Definition allEnabled : Options := mkOptions true true true true.

(** The variable and the reference have one and the same variable scope. *)
Definition sameVariableScope (variable : Var.t) (reference : Reference.t) : Prop :=
  Scope.id (Scope.variableScope (Var.scope variable))
  = Scope.id (Scope.variableScope (Reference.from reference)).

(** The scope is the global or the module scope. *)
Definition topLevel (scope : Scope.obj) : Prop :=
  Scope.type scope = "module" \/ Scope.type scope = "global".

(** *** The self-initializer detector, as the specification words it *)

Definition endOf (n : Node.t) : Z := snd (Node.range n).

(** [location] lies within the range of a node that exists. *)
Definition contains (node : option Node.t) (location : Z) : Prop :=
  exists n, node = Some n
            /\ fst (Node.range n) <= location /\ location <= snd (Node.range n).

Definition isDeclarator (n : Node.t) : Prop := Node.type n = "VariableDeclarator".

Definition isAssignmentPattern (n : Node.t) : Prop := Node.type n = "AssignmentPattern".

(** Function and class declarations and expressions, arrow functions,
    catch clauses, import declarations, named export declarations. *)
Definition isSentinel (n : Node.t) : Prop :=
  In (Node.type n)
     ["FunctionDeclaration"; "FunctionExpression"; "ClassDeclaration";
      "ClassExpression"; "ArrowFunctionExpression"; "CatchClause";
      "ImportDeclaration"; "ExportNamedDeclaration"].

Definition hasGrandparent (n : Node.t) : Prop :=
  exists p g, Node.parent n = Some p /\ Node.parent p = Some g.

(** The grandparent is a for-in or for-of statement whose right-hand
    expression contains [location]. *)
Definition inLoopRight (n : Node.t) (location : Z) : Prop :=
  exists p g, Node.parent n = Some p /\ Node.parent p = Some g
              /\ (Node.type g = "ForInStatement" \/ Node.type g = "ForOfStatement")
              /\ contains (Node.right g) location.

(** [verdict location node b]: walking the ancestor chain from [node]
    answers [b]. *)
Inductive verdict (location : Z) : option Node.t -> bool -> Prop :=
| verdict_end :
    verdict location None false
| verdict_declarator_init n :
    isDeclarator n -> contains (Node.init n) location ->
    verdict location (Some n) true
| verdict_declarator_loop n :
    isDeclarator n -> inLoopRight n location ->
    verdict location (Some n) true
| verdict_declarator_stop n :
    isDeclarator n -> ~ contains (Node.init n) location -> ~ inLoopRight n location ->
    verdict location (Some n) false
| verdict_pattern_default n :
    isAssignmentPattern n -> contains (Node.right n) location ->
    verdict location (Some n) true
| verdict_pattern_up n b :
    isAssignmentPattern n -> ~ contains (Node.right n) location ->
    verdict location (Node.parent n) b ->
    verdict location (Some n) b
| verdict_sentinel n :
    isSentinel n ->
    verdict location (Some n) false
| verdict_up n b :
    ~ isDeclarator n -> ~ isAssignmentPattern n -> ~ isSentinel n ->
    verdict location (Node.parent n) b ->
    verdict location (Some n) b.

(** The detector's answer for a variable and a reference. *)
Definition selfInitializer (variable : Var.t) (reference : Reference.t) (b : bool) : Prop :=
  exists id0 rest,
    Var.identifiers variable = id0 :: rest
    /\ verdict (endOf (Reference.identifier reference)) (Node.parent id0) b.

(** The nodes the walk from [start] looks at: it moves to the parent of a
    node that is neither a declarator, nor a sentinel, nor an assignment
    pattern whose default contains [location]. *)
Inductive reached (location : Z) (start : Node.t) : Node.t -> Prop :=
| reached_start : reached location start start
| reached_parent n p :
    reached location start n ->
    ~ isDeclarator n -> ~ isSentinel n ->
    ~ (isAssignmentPattern n /\ contains (Node.right n) location) ->
    Node.parent n = Some p ->
    reached location start p.

(** *** Well-formed input *)

(** The variable has a first definition, and that definition has a parent. *)
Definition definedWithParent (variable : Var.t) : Prop :=
  exists d rest p, Var.defs variable = d :: rest /\ Def.parent d = Some p.

(** Every declarator the initializer walk reaches has a parent with a parent. *)
Definition declaratorsNested (variable : Var.t) (reference : Reference.t) : Prop :=
  forall id0 rest start n,
    Var.identifiers variable = id0 :: rest ->
    Node.parent id0 = Some start ->
    reached (endOf (Reference.identifier reference)) start n ->
    isDeclarator n -> hasGrandparent n.

Definition wellFormedReference (reference : Reference.t) : Prop :=
  forall variable, Reference.resolved reference = Some variable ->
    definedWithParent variable /\ declaratorsNested variable reference.

(** *** The scope tree in pre-order *)

Fixpoint preorder (scope : ScopeTree.t) : list ScopeTree.t :=
  scope :: flat_map preorder (ScopeTree.childScopes scope).

Fixpoint scopeCount (scope : ScopeTree.t) : nat :=
  S (list_sum (map scopeCount (ScopeTree.childScopes scope))).

(** The references of all scopes, each scope's own references in their
    order, the scopes in pre-order. *)
Definition allReferences (root : ScopeTree.t) : list Reference.t :=
  flat_map ScopeTree.references (preorder root).

Definition wellFormedScope (root : ScopeTree.t) : Prop :=
  Forall wellFormedReference (allReferences root).

(** *** Diagnostics *)

(** The diagnostic of a reference. *)
Definition diagnosticOf (reference : Reference.t) : Diagnostic :=
  {| node := Reference.identifier reference;
     message := usedBeforeDefined;
     data := Reference.identifier reference |}.

(** What visiting one reference adds to the sink. *)
Definition emitted (options : Options) (reference : Reference.t) : list Diagnostic :=
  snd (visitReference options reference []).

(** The five conditions under which a reference is reported. *)
Definition eligible (options : Options) (reference : Reference.t) : Prop :=
  Reference.init reference = false
  /\ exists variable,
       Reference.resolved reference = Some variable
       /\ exists id0 rest,
            Var.identifiers variable = id0 :: rest
            /\ ~ (endOf id0 < endOf (Reference.identifier reference)
                  /\ isInInitializer variable reference = Return false)
            /\ isForbidden options variable reference = Return true.

(** The message of the specification: ['<name>' was used before it was
    defined.] *)
Definition instantiated (name : string) : string :=
  String.append "'" (String.append name "' was used before it was defined.").

(** A node as the object it is: its own properties by name. *)
Fixpoint toObject (n : Node.t) : JsValue :=
  let child (key : string) (c : option Node.t) : gmap string JsValue :=
    match c with
    | Some c => {[ key := toObject c ]}
    | None => ∅
    end in
  let text (key : string) (s : option string) : gmap string JsValue :=
    match s with
    | Some s => {[ key := JsString s ]}
    | None => ∅
    end in
  JsObject
    ({[ "type" := JsString (Node.type n) ]}
     ∪ {[ "range" := JsArray [JsNumber (fst (Node.range n)); JsNumber (snd (Node.range n))] ∅ ]}
     ∪ child "parent" (Node.parent n)
     ∪ child "init" (Node.init n)
     ∪ child "right" (Node.right n)
     ∪ text "kind" (Node.kind n)
     ∪ text "name" (Node.name n)).

(** ** Deciding well-formedness *)

(** Every declarator on the ancestor chain of [n], [n] included, has a
    parent with a parent. *)
Fixpoint chainNested (n : Node.t) : bool :=
  (if String.eqb (Node.type n) "VariableDeclarator" then
     match Node.parent n with
     | Some p => match Node.parent p with Some _ => true | None => false end
     | None => false
     end
   else true)
  && match Node.parent n with
     | Some p => chainNested p
     | None => true
     end.

Definition checkReference (reference : Reference.t) : bool :=
  match Reference.resolved reference with
  | None => true
  | Some variable =>
      match Var.defs variable with
      | d :: _ => match Def.parent d with Some _ => true | None => false end
      | [] => false
      end
      && match Var.identifiers variable with
         | id0 :: _ =>
             match Node.parent id0 with
             | Some start => chainNested start
             | None => true
             end
         | [] => true
         end
  end.

Definition checkScope (root : ScopeTree.t) : bool :=
  forallb checkReference (allReferences root).

(** ** A sample program

    [[
f();
function f() {}
function g() { C; x; let y: T; class C {} let x = 1; type T = U; }
for (var k in k) {}
var {b = b} = o;
    ]]

    with its nodes (ranges are character offsets), variables, references
    and scopes.  A child node ([init], [right]) is given without its
    back-reference; the rule reads only its range. *)

Module Sample.
Definition syntax (type : string) (from to : Z) (parent : option Node.t) : Node.t :=
  Node.mk type (from, to) parent None None None None.

Definition name (text : string) (from to : Z) (parent : option Node.t) : Node.t :=
  Node.mk "Identifier" (from, to) parent None None None (Some text).

Definition declaration (kind : string) (from to : Z) (parent : Node.t) : Node.t :=
  Node.mk "VariableDeclaration" (from, to) (Some parent) None None (Some kind) None.

Definition declarator (from to : Z) (parent : Node.t) (init : option Node.t) : Node.t :=
  Node.mk "VariableDeclarator" (from, to) (Some parent) init None None None.

Definition program : Node.t := syntax "Program" 0 125 None.

(* f(); *)
Definition fUse : Node.t :=
  name "f" 0 1
    (Some (syntax "CallExpression" 0 3
             (Some (syntax "ExpressionStatement" 0 4 (Some program))))).

(* function f() {} *)
Definition fDecl : Node.t := syntax "FunctionDeclaration" 5 20 (Some program).
Definition fId : Node.t := name "f" 14 15 (Some fDecl).

(* function g() { ... } *)
Definition gBody : Node.t :=
  syntax "BlockStatement" 34 87
    (Some (syntax "FunctionDeclaration" 21 87 (Some program))).
Definition cUse : Node.t :=
  name "C" 36 37 (Some (syntax "ExpressionStatement" 36 38 (Some gBody))).
Definition xUse : Node.t :=
  name "x" 39 40 (Some (syntax "ExpressionStatement" 39 41 (Some gBody))).
Definition tUse : Node.t :=
  name "T" 49 50
    (Some (syntax "TSTypeReference" 49 50
             (Some (declarator 46 50 (declaration "let" 42 51 gBody) None)))).
Definition cId : Node.t :=
  name "C" 58 59 (Some (syntax "ClassDeclaration" 52 62 (Some gBody))).
Definition letX : Node.t := declaration "let" 63 73 gBody.
Definition xId : Node.t :=
  name "x" 67 68 (Some (declarator 67 72 letX (Some (syntax "Literal" 71 72 None)))).
Definition typeT : Node.t := declaration "type" 74 85 gBody.
Definition tId : Node.t :=
  name "T" 79 80
    (Some (declarator 79 84 typeT (Some (syntax "TSTypeReference" 83 84 None)))).

(* for (var k in k) {} *)
Definition forIn : Node.t :=
  Node.mk "ForInStatement" (88, 107) (Some program) None
          (Some (name "k" 102 103 None)) None None.
Definition varK : Node.t := declaration "var" 93 98 forIn.
Definition kId : Node.t := name "k" 97 98 (Some (declarator 97 98 varK None)).
Definition kUse : Node.t := name "k" 102 103 (Some forIn).

(* var {b = b} = o; *)
Definition varB : Node.t := declaration "var" 108 124 program.
Definition bDeclarator : Node.t :=
  declarator 112 123 varB (Some (name "o" 122 123 None)).
Definition bDefault : Node.t :=
  Node.mk "AssignmentPattern" (113, 118)
          (Some (syntax "Property" 113 118
                   (Some (syntax "ObjectPattern" 112 119 (Some bDeclarator)))))
          None (Some (name "b" 117 118 None)) None None.
Definition bId : Node.t := name "b" 113 114 (Some bDefault).
Definition bUse : Node.t := name "b" 117 118 (Some bDefault).
Definition oUse : Node.t := name "o" 122 123 (Some bDeclarator).

(** Scopes: the global scope, the scopes of [f] and [g], the class scope
    of [C] and the block of the loop. *)
Definition globalObj : Scope.obj := Scope.mkObj 0 "global".
Definition fObj : Scope.obj := Scope.mkObj 1 "function".
Definition gObj : Scope.obj := Scope.mkObj 2 "function".
Definition globalScope : Scope.ref := Scope.mkRef globalObj globalObj.
Definition fScope : Scope.ref := Scope.mkRef fObj fObj.
Definition gScope : Scope.ref := Scope.mkRef gObj gObj.
Definition classScope : Scope.ref := Scope.mkRef (Scope.mkObj 3 "class") gObj.
Definition blockScope : Scope.ref := Scope.mkRef (Scope.mkObj 4 "block") globalObj.

Definition fVar : Var.t := Var.mk [Def.mk "FunctionName" None] [fId] globalScope.
Definition cVar : Var.t := Var.mk [Def.mk "ClassName" None] [cId] gScope.
Definition xVar : Var.t := Var.mk [Def.mk "Variable" (Some letX)] [xId] gScope.
Definition tVar : Var.t := Var.mk [Def.mk "Variable" (Some typeT)] [tId] gScope.
Definition kVar : Var.t := Var.mk [Def.mk "Variable" (Some varK)] [kId] globalScope.
Definition bVar : Var.t := Var.mk [Def.mk "Variable" (Some varB)] [bId] globalScope.

Definition fRef : Reference.t := Reference.mk fUse (Some fVar) false globalScope.
Definition kWrite : Reference.t := Reference.mk kId (Some kVar) true globalScope.
Definition kRef : Reference.t := Reference.mk kUse (Some kVar) false globalScope.
Definition bWrite : Reference.t := Reference.mk bId (Some bVar) true globalScope.
Definition bRef : Reference.t := Reference.mk bUse (Some bVar) false globalScope.
Definition oRef : Reference.t := Reference.mk oUse None false globalScope.
Definition cRef : Reference.t := Reference.mk cUse (Some cVar) false gScope.
Definition xRef : Reference.t := Reference.mk xUse (Some xVar) false gScope.
Definition tRef : Reference.t := Reference.mk tUse (Some tVar) false gScope.
Definition xWrite : Reference.t := Reference.mk xId (Some xVar) true gScope.

Definition gTree : ScopeTree.t :=
  ScopeTree.mk gScope [cRef; xRef; tRef; xWrite] [ScopeTree.mk classScope [] []].

Definition globalTree : ScopeTree.t :=
  ScopeTree.mk globalScope [fRef; kWrite; kRef; bWrite; bRef; oRef]
    [ScopeTree.mk fScope [] []; gTree; ScopeTree.mk blockScope [] []].

(** The two loops and the destructuring alone: every resolved variable
    has a definition with a parent. *)
Definition loopsTree : ScopeTree.t :=
  ScopeTree.mk globalScope [kWrite; kRef; bWrite; bRef; oRef]
    [ScopeTree.mk blockScope [] []].

(** A binding that has a definition and no identifier, and a reference
    to it from its own scope. *)
Definition ambient : Var.t := Var.mk [Def.mk "Variable" (Some varK)] [] globalScope.
Definition ambientRef : Reference.t := Reference.mk kUse (Some ambient) false globalScope.
End Sample.

(** The names reported on the sample program under the policy parsed from
    [options]. *)
Definition reportedNames (options : JsValue) : list (option string) :=
  map (fun d => Node.name (node d))
      (snd (findVariablesInScope (parseOptions options) Sample.globalTree [])).

(** ** Further vocabulary: policies, categories, error conditions *)

(** [defaultOptions[0]] *)
Definition defaultOptions : JsValue :=
  JsObject (<["functions" := JsBoolean true]>
            (<["classes" := JsBoolean true]>
             (<["variables" := JsBoolean true]>
              (<["typedefs" := JsBoolean true]> ∅)))).

(** The options object that spells out the four fields of a policy. *)
Definition policyObject (p : Options) : JsValue :=
  JsObject (<["functions" := JsBoolean (functions p)]>
            (<["classes" := JsBoolean (classes p)]>
             (<["variables" := JsBoolean (variables p)]>
              (<["typedefs" := JsBoolean (typedefs p)]> ∅)))).


(** Every category enabled in [o] is enabled in [o']. *)
Definition atMost (o o' : Options) : Prop :=
  (functions o = true -> functions o' = true)
  /\ (classes o = true -> classes o' = true)
  /\ (variables o = true -> variables o' = true)
  /\ (typedefs o = true -> typedefs o' = true).

(** The first definition cannot be classified: there is none, or it is a
    [Variable] definition without a parent. *)
Definition unclassifiable (variable : Var.t) : Prop :=
  Var.defs variable = []
  \/ exists d rest, Var.defs variable = d :: rest
                    /\ Def.type d = "Variable" /\ Def.parent d = None.

(** The decision of the classifier on a first definition [d], [outer]
    telling whether the variable scopes differ or are top level. *)
Definition decision (options : Options) (d : Def.t) (outer : bool) : completion bool :=
  if String.eqb (Def.type d) "FunctionName" then Return (functions options)
  else if String.eqb (Def.type d) "ClassName" then
    Return (if outer then classes options else true)
  else if String.eqb (Def.type d) "Variable" then
    match Def.parent d with
    | None => Throw TypeError
    | Some p =>
        Return (if kindIsType p && negb (typedefs options) then false
                else if outer then variables options else true)
    end
  else Return true.

(** The reference is resolved to a variable first defined as a function. *)
Definition refersToFunction (reference : Reference.t) : bool :=
  match Reference.resolved reference with
  | Some variable =>
      match Var.defs variable with
      | d :: _ => String.eqb (Def.type d) "FunctionName"
      | [] => false
      end
  | None => false
  end.

(** The reference is resolved to a variable first defined by a declaration
    of kind ["type"]. *)
Definition refersToTypeAlias (reference : Reference.t) : bool :=
  match Reference.resolved reference with
  | Some variable =>
      match Var.defs variable with
      | d :: _ =>
          String.eqb (Def.type d) "Variable"
          && match Def.parent d with
             | Some p => kindIsType p
             | None => false
             end
      | [] => false
      end
  | None => false
  end.

(** A reference the callback can visit without an exception: if it is no
    initialization and is resolved to a variable with an identifier, the
    declarators its initializer walk reaches are nested and its first
    definition can be classified. *)
Definition visitable (reference : Reference.t) : Prop :=
  Reference.init reference = false ->
  forall variable id0 rest,
    Reference.resolved reference = Some variable ->
    Var.identifiers variable = id0 :: rest ->
    declaratorsNested variable reference /\ ~ unclassifiable variable.

Definition checkVisitable (reference : Reference.t) : bool :=
  Reference.init reference
  || match Reference.resolved reference with
     | None => true
     | Some variable =>
         match Var.identifiers variable with
         | [] => true
         | id0 :: _ =>
             match Var.defs variable with
             | [] => false
             | d :: _ =>
                 negb (String.eqb (Def.type d) "Variable")
                 || match Def.parent d with Some _ => true | None => false end
             end
             && match Node.parent id0 with
                | Some start => chainNested start
                | None => true
                end
         end
     end.

(** A declarator the walk stops at with an exception: its initializer does
    not contain the location and it has no parent with a parent. *)
Definition orphanDeclarator (location : Z) (n : Node.t) : Prop :=
  isDeclarator n /\ ~ contains (Node.init n) location /\ ~ hasGrandparent n.

(** ** Two more sample programs *)

Module Later.
(** [[
class D {}
new D();
function h() { return D; }
    ]]
    Uses of [D] after its declaration, from the same and from another scope. *)
Definition program : Node.t := Sample.syntax "Program" 0 47 None.
Definition dId : Node.t :=
  Sample.name "D" 6 7 (Some (Sample.syntax "ClassDeclaration" 0 10 (Some program))).
Definition dNew : Node.t :=
  Sample.name "D" 15 16
    (Some (Sample.syntax "NewExpression" 11 18
             (Some (Sample.syntax "ExpressionStatement" 11 19 (Some program))))).
Definition dReturn : Node.t :=
  Sample.name "D" 42 43
    (Some (Sample.syntax "ReturnStatement" 35 44
             (Some (Sample.syntax "BlockStatement" 33 46
                      (Some (Sample.syntax "FunctionDeclaration" 20 46 (Some program))))))).
Definition hScope : Scope.ref :=
  Scope.mkRef (Scope.mkObj 5 "function") (Scope.mkObj 5 "function").
Definition dVar : Var.t := Var.mk [Def.mk "ClassName" None] [dId] Sample.globalScope.
Definition dNewRef : Reference.t := Reference.mk dNew (Some dVar) false Sample.globalScope.
Definition dReturnRef : Reference.t := Reference.mk dReturn (Some dVar) false hScope.
End Later.

Module Broken.
(** The first sample with, between the references to [f] and to [k], a
    reference to a variable that has an identifier and no definition. *)
Definition lost : Var.t := Var.mk [] [Sample.kId] Sample.globalScope.
Definition lostRef : Reference.t :=
  Reference.mk Sample.fUse (Some lost) false Sample.globalScope.
Definition tree : ScopeTree.t :=
  ScopeTree.mk Sample.globalScope
    [Sample.fRef; lostRef; Sample.kWrite; Sample.kRef]
    [Sample.gTree].
End Broken.

(** A scope whose first reference is to the binding without identifier. *)
Definition ambientTree : ScopeTree.t :=
  ScopeTree.mk Sample.globalScope [Sample.ambientRef; Sample.kRef] [].

(** The part of the callback's condition that does not look at the policy:
    [Return None] when the reference is skipped outright, [Return (Some
    variable)] when the classifier is to be asked about [variable]. *)
Definition asks (reference : Reference.t) : completion (option Var.t) :=
  if Reference.init reference then Return None else
  match Reference.resolved reference with
  | None => Return None
  | Some variable =>
      match Var.identifiers variable with
      | [] => Return None
      | id0 :: _ =>
          precedes <-
            (if snd (Node.range id0) <? snd (Node.range (Reference.identifier reference))
             then b <- isInInitializer variable reference ;; Return (negb b)
             else Return false) ;;
          if precedes then Return None else Return (Some variable)
      end
  end.

(** The reference is resolved to a class that is referenced from another
    variable scope or declared at top level. *)
Definition refersToOuterClass (reference : Reference.t) : bool :=
  match Reference.resolved reference with
  | Some variable =>
      match Var.defs variable with
      | d :: _ =>
          String.eqb (Def.type d) "ClassName" && outerOrTopLevel variable reference
      | [] => false
      end
  | None => false
  end.

(** The reference is resolved to a variable that is referenced from
    another variable scope or declared at top level, and that is no type
    alias exempted by [typedefs] being off. *)
Definition refersToOuterVariable (typedefs : bool) (reference : Reference.t) : bool :=
  match Reference.resolved reference with
  | Some variable =>
      match Var.defs variable with
      | d :: _ =>
          String.eqb (Def.type d) "Variable"
          && outerOrTopLevel variable reference
          && match Def.parent d with
             | Some p => negb (kindIsType p && negb typedefs)
             | None => false
             end
      | [] => false
      end
  | None => false
  end.

(** * Properties *)

(** ** Option parsing *)

Lemma isNotFalse_false (v : JsValue) : isNotFalse v = false <-> v = JsBoolean false.
Proof.
  split.
  - destruct v as [| |[]| | | |]; simpl; congruence.
  - intros ->. reflexivity.
Qed.

Lemma getProp_false (props : gmap string JsValue) (key : string) :
  isNotFalse (getProp (JsObject props) key) = false
  <-> props !! key = Some (JsBoolean false).
Proof.
  rewrite isNotFalse_false. unfold getProp.
  destruct (props !! key) as [v|]; simpl; split; congruence.
Qed.

(** C6: ["nofunc"] disables the functions category only; an object gives
    the policy in which a field is false exactly when the object holds the
    boolean [false] under that key, and true otherwise. *)
Theorem parseOptions_nofunc_and_object :
  parseOptions (JsString "nofunc") = mkOptions false true true true
  /\ forall props : gmap string JsValue,
       let policy := parseOptions (JsObject props) in
       (functions policy = false <-> props !! "functions" = Some (JsBoolean false))
       /\ (classes policy = false <-> props !! "classes" = Some (JsBoolean false))
       /\ (variables policy = false <-> props !! "variables" = Some (JsBoolean false))
       /\ (typedefs policy = false <-> props !! "typedefs" = Some (JsBoolean false)).
Proof.
  split; [reflexivity|].
  intros props policy. subst policy. cbn [parseOptions typeof isNotNull].
  change (String.eqb "object" "string") with false.
  change (String.eqb "object" "object") with true.
  cbn [andb functions classes variables typedefs].
  repeat split; try apply getProp_false; apply getProp_false; assumption.
Qed.

(** C10: a string other than ["nofunc"] parses to the all-enabled policy,
    the same policy as for no options at all. *)
Theorem parseOptions_other_string (s : string) :
  s <> "nofunc" ->
  parseOptions (JsString s) = allEnabled
  /\ parseOptions (JsString s) = parseOptions JsUndefined.
Proof.
  intros Hs.
  assert (H : parseOptions (JsString s) = allEnabled).
  { unfold parseOptions. cbn [typeof isNotString].
    change (String.eqb "string" "string") with true. cbn iota.
    apply String.eqb_neq in Hs. rewrite Hs. reflexivity. }
  split; [exact H|]. rewrite H. reflexivity.
Qed.

Lemma parseOptions_other_string_witness :
  "func" <> "nofunc"
  /\ parseOptions (JsString "func") = allEnabled
  /\ parseOptions (JsString "func") = parseOptions JsUndefined.
Proof.
  split; [discriminate|].
  apply (parseOptions_other_string "func"). discriminate.
Defined.

(** ** The binding classifier *)

Lemma isTopLevelScope_spec (scope : Scope.obj) :
  isTopLevelScope scope = true <-> topLevel scope.
Proof.
  unfold isTopLevelScope, topLevel.
  rewrite orb_true_iff, !String.eqb_eq. reflexivity.
Qed.

Lemma outerOrTopLevel_true (variable : Var.t) (reference : Reference.t) :
  outerOrTopLevel variable reference = true
  <-> ~ sameVariableScope variable reference
      \/ topLevel (Scope.variableScope (Var.scope variable)).
Proof.
  unfold outerOrTopLevel, sameVariableScope, Scope.same.
  rewrite <- isTopLevelScope_spec.
  destruct (Nat.eqb_spec (Scope.id (Scope.variableScope (Var.scope variable)))
              (Scope.id (Scope.variableScope (Reference.from reference)))) as [He|Hne];
    destruct (isTopLevelScope (Scope.variableScope (Var.scope variable)));
    cbn; intuition congruence.
Qed.

Lemma outerOrTopLevel_false (variable : Var.t) (reference : Reference.t) :
  outerOrTopLevel variable reference = false
  <-> sameVariableScope variable reference
      /\ ~ topLevel (Scope.variableScope (Var.scope variable)).
Proof.
  unfold outerOrTopLevel, sameVariableScope, Scope.same.
  rewrite <- isTopLevelScope_spec.
  destruct (Nat.eqb_spec (Scope.id (Scope.variableScope (Var.scope variable)))
              (Scope.id (Scope.variableScope (Reference.from reference)))) as [He|Hne];
    destruct (isTopLevelScope (Scope.variableScope (Var.scope variable)));
    cbn; intuition congruence.
Qed.

Lemma kindIsType_spec (n : Node.t) :
  kindIsType n = true <-> Node.kind n = Some "type".
Proof.
  unfold kindIsType. destruct (Node.kind n) as [k|].
  - rewrite String.eqb_eq. split; congruence.
  - split; congruence.
Qed.

(** Unfold the classifier on a variable whose first definition is known. *)
Ltac classify Hdefs Htype :=
  unfold isForbidden, isFunction, isOuterClass, isType, isOuterVariable, firstDef;
  rewrite Hdefs; cbn [bindC]; rewrite Htype; cbn.

(** C4: a variable whose first definition is a [FunctionName] is forbidden
    exactly when [functions] is set, whatever the reference and the other
    three fields. *)
Theorem isForbidden_function (options : Options) (variable : Var.t)
    (reference : Reference.t) (d : Def.t) (rest : list Def.t) :
  Var.defs variable = d :: rest ->
  Def.type d = "FunctionName" ->
  isForbidden options variable reference = Return (functions options).
Proof.
  intros Hdefs Htype. classify Hdefs Htype. reflexivity.
Qed.

Lemma isForbidden_function_witness :
  Var.defs Sample.fVar = [Def.mk "FunctionName" None]
  /\ isForbidden (parseOptions (JsString "nofunc")) Sample.fVar Sample.fRef
     = Return false.
Proof.
  split; [reflexivity|].
  apply (isForbidden_function (parseOptions (JsString "nofunc")) Sample.fVar
           Sample.fRef (Def.mk "FunctionName" None) []); reflexivity.
Defined.

(** C3: a class, or a variable that is not a type alias, referenced from
    its own variable scope, that scope not being the global or module
    scope, is forbidden under every policy. *)
Theorem isForbidden_same_scope (options : Options) (variable : Var.t)
    (reference : Reference.t) (d : Def.t) (rest : list Def.t) :
  Var.defs variable = d :: rest ->
  sameVariableScope variable reference ->
  Scope.type (Scope.variableScope (Var.scope variable)) <> "global" ->
  Scope.type (Scope.variableScope (Var.scope variable)) <> "module" ->
  (Def.type d = "ClassName" ->
   isForbidden options variable reference = Return true)
  /\ (forall declarator : Node.t,
        Def.type d = "Variable" ->
        Def.parent d = Some declarator ->
        Node.kind declarator <> Some "type" ->
        isForbidden options variable reference = Return true).
Proof.
  intros Hdefs Hsame Hg Hm.
  assert (Hout : outerOrTopLevel variable reference = false).
  { apply outerOrTopLevel_false. split; [exact Hsame|].
    unfold topLevel. tauto. }
  split.
  - intros Htype. classify Hdefs Htype. rewrite Hout. reflexivity.
  - intros declarator Htype Hparent Hkind. classify Hdefs Htype.
    rewrite Hparent, Hout.
    destruct (kindIsType declarator) eqn:Hk.
    + apply kindIsType_spec in Hk. contradiction.
    + reflexivity.
Qed.

Lemma isForbidden_same_scope_witness :
  sameVariableScope Sample.cVar Sample.cRef
  /\ isForbidden (mkOptions false false false false) Sample.cVar Sample.cRef
     = Return true
  /\ isForbidden (mkOptions false false false false) Sample.xVar Sample.xRef
     = Return true.
Proof.
  split; [reflexivity|]. split.
  - apply (isForbidden_same_scope (mkOptions false false false false) Sample.cVar
             Sample.cRef (Def.mk "ClassName" None) []);
      [reflexivity | reflexivity | discriminate | discriminate | reflexivity].
  - apply (isForbidden_same_scope (mkOptions false false false false) Sample.xVar
             Sample.xRef (Def.mk "Variable" (Some Sample.letX)) []) with Sample.letX;
      [reflexivity | reflexivity | discriminate | discriminate
      | reflexivity | reflexivity | discriminate].
Defined.

(** C5: with [typedefs] off a type alias is never forbidden; with
    [typedefs] on it is classified as any other variable: by [variables]
    when referenced from another variable scope or declared at top level,
    and forbidden otherwise. *)
Theorem isForbidden_type_alias (options : Options) (variable : Var.t)
    (reference : Reference.t) (d : Def.t) (rest : list Def.t) (declarator : Node.t) :
  Var.defs variable = d :: rest ->
  Def.type d = "Variable" ->
  Def.parent d = Some declarator ->
  Node.kind declarator = Some "type" ->
  (typedefs options = false ->
   isForbidden options variable reference = Return false)
  /\ (typedefs options = true ->
      (~ sameVariableScope variable reference
       \/ topLevel (Scope.variableScope (Var.scope variable)) ->
       isForbidden options variable reference = Return (variables options))
      /\ (sameVariableScope variable reference
          /\ ~ topLevel (Scope.variableScope (Var.scope variable)) ->
          isForbidden options variable reference = Return true)).
Proof.
  intros Hdefs Htype Hparent Hkind.
  apply kindIsType_spec in Hkind.
  split; [intros Hoff | intros Hon; split; intros Hscope].
  - classify Hdefs Htype. rewrite Hparent, Hkind, Hoff. reflexivity.
  - apply outerOrTopLevel_true in Hscope.
    classify Hdefs Htype. rewrite Hparent, Hkind, Hon, Hscope. reflexivity.
  - apply outerOrTopLevel_false in Hscope.
    classify Hdefs Htype. rewrite Hparent, Hkind, Hon, Hscope. reflexivity.
Qed.

Lemma isForbidden_type_alias_witness :
  Node.kind Sample.typeT = Some "type"
  /\ isForbidden (mkOptions true true true false) Sample.tVar Sample.tRef
     = Return false
  /\ isForbidden allEnabled Sample.tVar Sample.tRef = Return true.
Proof.
  split; [reflexivity|]. split.
  - apply (isForbidden_type_alias (mkOptions true true true false) Sample.tVar
             Sample.tRef (Def.mk "Variable" (Some Sample.typeT)) [] Sample.typeT);
      reflexivity.
  - apply (isForbidden_type_alias allEnabled Sample.tVar
             Sample.tRef (Def.mk "Variable" (Some Sample.typeT)) [] Sample.typeT);
      try reflexivity.
    split; [reflexivity|]. unfold topLevel. cbn. intros [H|H]; discriminate H.
Defined.

(** ** The self-initializer detector *)

Lemma isInRange_spec (node : option Node.t) (location : Z) :
  isInRange node location = true <-> contains node location.
Proof.
  unfold isInRange, contains. destruct node as [n|].
  - rewrite andb_true_iff, !Z.leb_le. split.
    + intros H. exists n. tauto.
    + intros (m & Hm & H). injection Hm as <-. exact H.
  - split; [discriminate|]. intros (m & Hm & _). discriminate.
Qed.

Lemma SENTINEL_TYPE_spec (n : Node.t) :
  SENTINEL_TYPE (Node.type n) = true <-> isSentinel n.
Proof.
  unfold SENTINEL_TYPE, isSentinel. cbn [In].
  rewrite !orb_true_iff, !String.eqb_eq.
  intuition congruence.
Qed.

Lemma FOR_IN_OF_TYPE_spec (s : string) :
  FOR_IN_OF_TYPE s = true <-> s = "ForInStatement" \/ s = "ForOfStatement".
Proof.
  unfold FOR_IN_OF_TYPE. rewrite orb_true_iff, !String.eqb_eq. reflexivity.
Qed.

Lemma declarator_not_pattern (n : Node.t) : isDeclarator n -> ~ isAssignmentPattern n.
Proof. unfold isDeclarator, isAssignmentPattern. intros -> H. discriminate H. Qed.

Lemma declarator_not_sentinel (n : Node.t) : isDeclarator n -> ~ isSentinel n.
Proof.
  unfold isDeclarator, isSentinel. intros ->. cbn [In].
  intuition discriminate.
Qed.

Lemma pattern_not_sentinel (n : Node.t) : isAssignmentPattern n -> ~ isSentinel n.
Proof.
  unfold isAssignmentPattern, isSentinel. intros ->. cbn [In].
  intuition discriminate.
Qed.

(** Induction along the ancestor chain. *)
Lemma Node_parent_ind (P : Node.t -> Prop) :
  (forall n, (forall p, Node.parent n = Some p -> P p) -> P n) ->
  forall n, P n.
Proof.
  intros step. fix IH 1. intros n. apply step.
  destruct n as [ty rg [q|] i r k nm]; cbn; intros p Hp.
  - injection Hp as <-. apply IH.
  - discriminate Hp.
Qed.

Lemma initializerLoop_eq (location : Z) (node : Node.t) :
  initializerLoop location node =
  if String.eqb (Node.type node) "VariableDeclarator" then
    if isInRange (Node.init node) location then Return true
    else
      match Node.parent node with
      | None => Throw TypeError
      | Some p =>
          match Node.parent p with
          | None => Throw TypeError
          | Some g =>
              if FOR_IN_OF_TYPE (Node.type g) && isInRange (Node.right g) location
              then Return true
              else Return false
          end
      end
  else
    let next :=
      match Node.parent node with
      | None => Return false
      | Some p => initializerLoop location p
      end in
    if String.eqb (Node.type node) "AssignmentPattern" then
      if isInRange (Node.right node) location then Return true else next
    else if SENTINEL_TYPE (Node.type node) then Return false
    else next.
Proof. destruct node; reflexivity. Qed.

Lemma reached_from_parent (location : Z) (node p n : Node.t) :
  ~ isDeclarator node -> ~ isSentinel node ->
  ~ (isAssignmentPattern node /\ contains (Node.right node) location) ->
  Node.parent node = Some p ->
  reached location p n -> reached location node n.
Proof.
  intros Hd Hs Ha Hp Hr. induction Hr as [|m q Hr IH Hd' Hs' Ha' Hq].
  - eapply reached_parent; [apply reached_start | | | |]; eassumption.
  - eapply reached_parent; eassumption.
Qed.

Lemma inLoopRight_spec (n p g : Node.t) (location : Z) :
  Node.parent n = Some p -> Node.parent p = Some g ->
  FOR_IN_OF_TYPE (Node.type g) && isInRange (Node.right g) location = true
  <-> inLoopRight n location.
Proof.
  intros Hp Hg. rewrite andb_true_iff, FOR_IN_OF_TYPE_spec, isInRange_spec.
  unfold inLoopRight. split.
  - intros [Ht Hc]. exists p, g. tauto.
  - intros (p' & g' & Hp' & Hg' & Ht & Hc).
    rewrite Hp in Hp'. injection Hp' as <-.
    rewrite Hg in Hg'. injection Hg' as <-. tauto.
Qed.

(** The loop returns, and returns the verdict of the specification,
    whenever the declarators it reaches have a grandparent. *)
Lemma initializerLoop_verdict (location : Z) (node : Node.t) :
  (forall n, reached location node n -> isDeclarator n -> hasGrandparent n) ->
  exists b, initializerLoop location node = Return b
            /\ verdict location (Some node) b.
Proof.
  induction node as [node IH] using Node_parent_ind. intros Hwf.
  rewrite initializerLoop_eq.
  destruct (String.eqb_spec (Node.type node) "VariableDeclarator") as [Hd|Hd].
  - destruct (isInRange (Node.init node) location) eqn:Hinit.
    + exists true. split; [reflexivity|].
      apply verdict_declarator_init; [exact Hd|]. apply isInRange_spec, Hinit.
    + destruct (Hwf node (reached_start _ _) Hd) as (p & g & Hp & Hg).
      rewrite Hp, Hg.
      destruct (FOR_IN_OF_TYPE (Node.type g) && isInRange (Node.right g) location)
        eqn:Hloop.
      * exists true. split; [reflexivity|].
        apply verdict_declarator_loop; [exact Hd|].
        apply (inLoopRight_spec node p g location Hp Hg), Hloop.
      * exists false. split; [reflexivity|].
        apply verdict_declarator_stop; [exact Hd| |].
        -- rewrite <- isInRange_spec, Hinit. discriminate.
        -- rewrite <- (inLoopRight_spec node p g location Hp Hg), Hloop. discriminate.
  - cbn zeta.
    destruct (String.eqb_spec (Node.type node) "AssignmentPattern") as [Ha|Ha].
    + destruct (isInRange (Node.right node) location) eqn:Hright.
      * exists true. split; [reflexivity|].
        apply verdict_pattern_default; [exact Ha|]. apply isInRange_spec, Hright.
      * assert (Hnc : ~ contains (Node.right node) location).
        { rewrite <- isInRange_spec, Hright. discriminate. }
        destruct (Node.parent node) as [p|] eqn:Hp.
        -- destruct (IH p eq_refl) as (b & Hb & Hv).
           { intros n Hr. apply Hwf.
             apply (reached_from_parent location node p n); auto.
             - apply pattern_not_sentinel, Ha.
             - tauto. }
           exists b. split; [exact Hb|].
           apply verdict_pattern_up; [exact Ha|exact Hnc|]. rewrite Hp. exact Hv.
        -- exists false. split; [reflexivity|].
           apply verdict_pattern_up; [exact Ha|exact Hnc|]. rewrite Hp.
           apply verdict_end.
    + destruct (SENTINEL_TYPE (Node.type node)) eqn:Hs.
      * exists false. split; [reflexivity|].
        apply verdict_sentinel, SENTINEL_TYPE_spec, Hs.
      * assert (Hns : ~ isSentinel node).
        { rewrite <- SENTINEL_TYPE_spec, Hs. discriminate. }
        destruct (Node.parent node) as [p|] eqn:Hp.
        -- destruct (IH p eq_refl) as (b & Hb & Hv).
           { intros n Hr. apply Hwf.
             apply (reached_from_parent location node p n); auto.
             unfold isAssignmentPattern. tauto. }
           exists b. split; [exact Hb|].
           apply verdict_up; auto. rewrite Hp. exact Hv.
        -- exists false. split; [reflexivity|].
           apply verdict_up; auto. rewrite Hp. apply verdict_end.
Qed.

(** The verdict of the specification is unique. *)
Lemma verdict_functional (location : Z) (node : option Node.t) (b1 b2 : bool) :
  verdict location node b1 -> verdict location node b2 -> b1 = b2.
Proof.
  intros H1. revert b2.
  induction H1; intros b2 Hother; inversion Hother; subst;
    try reflexivity;
    try match goal with
        | IH : forall b, verdict _ _ b -> _ = b |- _ => apply IH; assumption
        end;
    exfalso;
    eauto using declarator_not_pattern, declarator_not_sentinel, pattern_not_sentinel;
    try (eapply declarator_not_pattern; eassumption);
    try (eapply declarator_not_sentinel; eassumption);
    try (eapply pattern_not_sentinel; eassumption).
Qed.

Lemma chainNested_eq (n : Node.t) :
  chainNested n =
  (if String.eqb (Node.type n) "VariableDeclarator" then
     match Node.parent n with
     | Some p => match Node.parent p with Some _ => true | None => false end
     | None => false
     end
   else true)
  && match Node.parent n with
     | Some p => chainNested p
     | None => true
     end.
Proof. destruct n; reflexivity. Qed.

Lemma chainNested_reached (location : Z) (start n : Node.t) :
  chainNested start = true -> reached location start n -> chainNested n = true.
Proof.
  intros Hstart Hr. induction Hr as [|m p Hr IH _ _ _ Hp]; [exact Hstart|].
  rewrite chainNested_eq, Hp in IH. apply andb_true_iff in IH. tauto.
Qed.

Lemma chainNested_sound (location : Z) (start n : Node.t) :
  chainNested start = true -> reached location start n ->
  isDeclarator n -> hasGrandparent n.
Proof.
  intros Hstart Hr Hd.
  pose proof (chainNested_reached location start n Hstart Hr) as Hn.
  rewrite chainNested_eq in Hn. apply andb_true_iff in Hn. destruct Hn as [Hn _].
  unfold isDeclarator in Hd. rewrite Hd in Hn. cbn in Hn.
  unfold hasGrandparent.
  destruct (Node.parent n) as [p|]; [|discriminate].
  destruct (Node.parent p) as [g|] eqn:Hg; [|discriminate].
  exists p, g. split; [reflexivity | exact Hg].
Qed.

Lemma checkReference_sound (reference : Reference.t) :
  checkReference reference = true -> wellFormedReference reference.
Proof.
  unfold checkReference, wellFormedReference. intros Hc variable Hv.
  rewrite Hv in Hc. apply andb_true_iff in Hc. destruct Hc as [Hdefs Hids]. split.
  - unfold definedWithParent.
    destruct (Var.defs variable) as [|d rest]; [discriminate|].
    destruct (Def.parent d) as [p|] eqn:Hp; [|discriminate].
    exists d, rest, p. split; [reflexivity | exact Hp].
  - intros id0 rest start n Hid Hstart Hr Hd.
    rewrite Hid, Hstart in Hids.
    exact (chainNested_sound _ start n Hids Hr Hd).
Qed.

Lemma checkScope_sound (root : ScopeTree.t) :
  checkScope root = true -> wellFormedScope root.
Proof.
  unfold checkScope, wellFormedScope. intros Hc.
  apply Forall_forall. intros r Hr. apply checkReference_sound.
  rewrite forallb_forall in Hc. apply Hc. apply list_elem_of_In, Hr.
Qed.

(** C2: the detector answers false for a variable of another scope; for a
    variable of the reference's own scope it gives the verdict of the walk
    up the ancestor chain of the defining identifier, at the end of the
    reference's identifier. *)
Theorem isInInitializer_verdict (variable : Var.t) (reference : Reference.t) :
  (Scope.id (Scope.self (Var.scope variable))
   <> Scope.id (Scope.self (Reference.from reference)) ->
   isInInitializer variable reference = Return false)
  /\ (Scope.id (Scope.self (Var.scope variable))
      = Scope.id (Scope.self (Reference.from reference)) ->
      Var.identifiers variable <> [] ->
      declaratorsNested variable reference ->
      forall b, isInInitializer variable reference = Return b
                <-> selfInitializer variable reference b).
Proof.
  unfold isInInitializer, Scope.same. split.
  - intros Hne. apply Nat.eqb_neq in Hne. rewrite Hne. reflexivity.
  - intros Heq Hids Hwf b. apply Nat.eqb_eq in Heq. rewrite Heq. cbn [negb].
    unfold selfInitializer.
    destruct (Var.identifiers variable) as [|id0 rest] eqn:Hid; [congruence|].
    cbn zeta.
    assert (Hrun : exists b0,
               match Node.parent id0 with
               | Some node =>
                   initializerLoop (snd (Node.range (Reference.identifier reference))) node
               | None => Return false
               end = Return b0
               /\ verdict (endOf (Reference.identifier reference)) (Node.parent id0) b0).
    { destruct (Node.parent id0) as [start|] eqn:Hstart.
      - apply initializerLoop_verdict. intros n Hr Hd.
        exact (Hwf id0 rest start n Hid Hstart Hr Hd).
      - exists false. split; [reflexivity | apply verdict_end]. }
    destruct Hrun as (b0 & Hb0 & Hv0). rewrite Hb0. split.
    + intros Hb. injection Hb as <-. exists id0, rest. split; [reflexivity|exact Hv0].
    + intros (id1 & rest1 & Hid1 & Hv1). injection Hid1 as <- <-.
      f_equal. exact (verdict_functional _ _ _ _ Hv0 Hv1).
Qed.

Lemma isInInitializer_verdict_witness :
  Var.identifiers Sample.kVar <> []
  /\ declaratorsNested Sample.kVar Sample.kRef
  /\ (isInInitializer Sample.kVar Sample.kRef = Return true
      <-> selfInitializer Sample.kVar Sample.kRef true).
Proof.
  assert (Hwf : declaratorsNested Sample.kVar Sample.kRef).
  { apply (checkReference_sound Sample.kRef); reflexivity. }
  split; [discriminate|]. split; [exact Hwf|].
  apply (proj2 (isInInitializer_verdict Sample.kVar Sample.kRef));
    [reflexivity | discriminate | exact Hwf].
Defined.

(** ** The scope walker *)

(** Induction on the scope tree, with the hypothesis for every child. *)
Lemma ScopeTree_children_ind (P : ScopeTree.t -> Prop) :
  (forall this references children,
      Forall P children -> P (ScopeTree.mk this references children)) ->
  forall scope, P scope.
Proof.
  intros step. fix IH 1. intros [this references children].
  apply step. induction children as [|c cs IHcs]; constructor.
  - apply IH.
  - exact IHcs.
Qed.

Lemma findVariablesInScope_eq (options : Options) (scope : ScopeTree.t) :
  findVariablesInScope options scope =
  bindR (forEach (visitReference options) (ScopeTree.references scope))
        (fun _ => forEach (findVariablesInScope options) (ScopeTree.childScopes scope)).
Proof. destruct scope; reflexivity. Qed.

Section ForEachFacts.
Context {A : Type}.

Lemma forEach_app (f : A -> Report unit) (l1 l2 : list A) (sink : list Diagnostic) :
  forEach f (l1 ++ l2) sink = bindR (forEach f l1) (fun _ => forEach f l2) sink.
Proof.
  revert sink. induction l1 as [|x l1 IH]; intros sink; cbn.
  - reflexivity.
  - unfold bindR. destruct (f x sink) as [[[]|e] sink']; [|reflexivity].
    rewrite IH. reflexivity.
Qed.

Lemma forEach_ext (f g : A -> Report unit) (l : list A) :
  Forall (fun x => forall sink, f x sink = g x sink) l ->
  forall sink, forEach f l sink = forEach g l sink.
Proof.
  induction 1 as [|x l Hx _ IH]; intros sink; cbn; [reflexivity|].
  unfold bindR. rewrite Hx. destruct (g x sink) as [[[]|e] sink']; [|reflexivity].
  apply IH.
Qed.

End ForEachFacts.

Lemma forEach_flat_map {A B : Type} (f : B -> Report unit) (g : A -> list B)
    (l : list A) (sink : list Diagnostic) :
  forEach f (flat_map g l) sink = forEach (fun x => forEach f (g x)) l sink.
Proof.
  revert sink. induction l as [|x l IH]; intros sink; cbn; [reflexivity|].
  rewrite forEach_app. unfold bindR.
  destruct (forEach f (g x) sink) as [[[]|e] sink']; [|reflexivity].
  apply IH.
Qed.

(** The recursive walk is one loop over the scopes in pre-order. *)
Lemma findVariablesInScope_preorder (options : Options) (root : ScopeTree.t) :
  forall sink,
    findVariablesInScope options root sink =
    forEach (fun scope => forEach (visitReference options) (ScopeTree.references scope))
            (preorder root) sink.
Proof.
  induction root as [this references children IH] using ScopeTree_children_ind.
  intros sink. rewrite findVariablesInScope_eq. cbn.
  unfold bindR.
  destruct (forEach (visitReference options) references sink) as [[[]|e] sink'];
    [|reflexivity].
  rewrite forEach_flat_map. apply forEach_ext, IH.
Qed.

(** ... and so one loop over all references. *)
Lemma findVariablesInScope_references (options : Options) (root : ScopeTree.t)
    (sink : list Diagnostic) :
  findVariablesInScope options root sink =
  forEach (visitReference options) (allReferences root) sink.
Proof.
  rewrite findVariablesInScope_preorder. unfold allReferences.
  rewrite forEach_flat_map. reflexivity.
Qed.

Lemma preorder_length (root : ScopeTree.t) : length (preorder root) = scopeCount root.
Proof.
  induction root as [this references children IH] using ScopeTree_children_ind.
  cbn. f_equal. induction IH as [|c cs Hc _ IHcs]; cbn; [reflexivity|].
  rewrite length_app, Hc, IHcs. reflexivity.
Qed.

(** Visiting a reference appends [emitted] to the sink, whatever the sink
    holds. *)
Lemma visitReference_sink (options : Options) (reference : Reference.t)
    (sink : list Diagnostic) :
  visitReference options reference sink =
  (fst (visitReference options reference []), sink ++ emitted options reference).
Proof.
  unfold emitted, visitReference, bindR, lift, ret, report.
  destruct (skips options reference) as [[|]|e]; cbn; rewrite ?app_nil_r; reflexivity.
Qed.

Lemma emitted_cases (options : Options) (reference : Reference.t) :
  (skips options reference = Return false
   /\ emitted options reference = [diagnosticOf reference])
  \/ (skips options reference <> Return false
      /\ emitted options reference = []).
Proof.
  unfold emitted, visitReference, bindR, lift, ret, report.
  destruct (skips options reference) as [[|]|e]; cbn.
  - right. split; [discriminate | reflexivity].
  - left. split; reflexivity.
  - right. split; [discriminate | reflexivity].
Qed.

(** The loop over a list of references: its completion and what it emits
    do not depend on the sink, and every diagnostic is the one emitted for
    one of the references. *)
Lemma forEach_visitReference (options : Options) (references : list Reference.t) :
  exists c es,
    (forall sink, forEach (visitReference options) references sink = (c, sink ++ es))
    /\ Forall (fun d => exists r, In r references
                                 /\ emitted options r = [d] /\ d = diagnosticOf r) es.
Proof.
  induction references as [|r rs (c & es & Hrun & Hall)].
  - exists (Return tt), []. split; [|constructor].
    intros sink. cbn. unfold ret. rewrite app_nil_r. reflexivity.
  - assert (Hhere : Forall (fun d => exists r', In r' (r :: rs)
                                /\ emitted options r' = [d] /\ d = diagnosticOf r')
                      (emitted options r)).
    { destruct (emitted_cases options r) as [[_ He]|[_ He]]; rewrite He;
        repeat constructor.
      exists r. split; [left; reflexivity | split; [exact He | reflexivity]]. }
    assert (Hrest : Forall (fun d => exists r', In r' (r :: rs)
                                /\ emitted options r' = [d] /\ d = diagnosticOf r') es).
    { eapply Forall_impl; [exact Hall|]. intros d (r' & Hin & Hd).
      exists r'. split; [right; exact Hin | exact Hd]. }
    destruct (fst (visitReference options r [])) as [[]|e] eqn:Hfst.
    + exists c, (emitted options r ++ es). split.
      * intros sink. cbn. unfold bindR. rewrite visitReference_sink, Hfst.
        rewrite Hrun, app_assoc. reflexivity.
      * apply Forall_app. split; assumption.
    + exists (Throw e), (emitted options r). split; [|exact Hhere].
      intros sink. cbn. unfold bindR. rewrite visitReference_sink, Hfst. reflexivity.
Qed.

Lemma isForbidden_returns (options : Options) (variable : Var.t) (reference : Reference.t) :
  definedWithParent variable ->
  exists b, isForbidden options variable reference = Return b.
Proof.
  intros (d & rest & p & Hdefs & Hp).
  unfold isForbidden, isFunction, isOuterClass, isType, isOuterVariable, firstDef.
  rewrite Hdefs. cbn [bindC]. rewrite Hp.
  repeat match goal with
         | |- context [if ?c then _ else _] => destruct c; cbn [bindC negb]
         end; eauto.
Qed.

Lemma isInInitializer_returns (variable : Var.t) (reference : Reference.t) :
  Var.identifiers variable <> [] ->
  declaratorsNested variable reference ->
  exists b, isInInitializer variable reference = Return b.
Proof.
  intros Hids Hwf. unfold isInInitializer.
  destruct (negb _); [eauto|].
  destruct (Var.identifiers variable) as [|id0 rest] eqn:Hid; [congruence|].
  cbn zeta. destruct (Node.parent id0) as [start|] eqn:Hstart; [|eauto].
  destruct (initializerLoop_verdict
              (snd (Node.range (Reference.identifier reference))) start) as (b & Hb & _).
  - intros n Hr Hd. exact (Hwf id0 rest start n Hid Hstart Hr Hd).
  - eauto.
Qed.

(** On a well-formed reference the callback's condition evaluates, and it
    is false exactly for an eligible reference. *)
Lemma skips_eligible (options : Options) (reference : Reference.t) :
  wellFormedReference reference ->
  exists b, skips options reference = Return b
            /\ (b = false <-> eligible options reference).
Proof.
  intros Hwf. unfold skips, eligible.
  destruct (Reference.init reference).
  { exists true. split; [reflexivity|]. split; [discriminate|]. intros [H _]. discriminate H. }
  destruct (Reference.resolved reference) as [variable|] eqn:Hres.
  2:{ exists true. split; [reflexivity|]. split; [discriminate|].
      intros (_ & v & Hv & _). discriminate Hv. }
  destruct (Hwf variable Hres) as [Hdef Hnest].
  destruct (Var.identifiers variable) as [|id0 rest] eqn:Hid.
  { exists true. split; [reflexivity|]. split; [discriminate|].
    intros (_ & v & Hv & i & l & Hi & _). injection Hv as <-. congruence. }
  destruct (isInInitializer_returns variable reference) as [bi Hbi];
    [congruence | exact Hnest |].
  destruct (isForbidden_returns options variable reference Hdef) as [bf Hbf].
  rewrite Hbi, Hbf. cbn [bindC]. unfold endOf.
  destruct (Z.ltb_spec (snd (Node.range id0))
              (snd (Node.range (Reference.identifier reference)))) as [Hlt|Hge].
  - destruct bi; cbn [negb].
    + exists (negb bf). split; [reflexivity|]. split.
      * intros Hb. apply negb_false_iff in Hb. subst bf.
        split; [reflexivity|]. exists variable. split; [reflexivity|].
        exists id0, rest. split; [exact Hid|]. split; [|exact Hbf].
        intros [_ H]. rewrite Hbi in H. discriminate H.
      * intros (_ & v & Hv & _ & _ & _ & _ & Hf). injection Hv as <-.
        rewrite Hbf in Hf. injection Hf as ->. reflexivity.
    + exists true. split; [reflexivity|]. split; [discriminate|].
      intros (_ & v & Hv & i & l & Hi & Hnot & _). injection Hv as <-.
      rewrite Hid in Hi. injection Hi as <- <-.
      exfalso. apply Hnot. split; [exact Hlt | exact Hbi].
  - cbn [bindC]. exists (negb bf). split; [reflexivity|]. split.
    + intros Hb. apply negb_false_iff in Hb. subst bf.
      split; [reflexivity|]. exists variable. split; [reflexivity|].
      exists id0, rest. split; [exact Hid|]. split; [|exact Hbf].
      intros [H _]. lia.
    + intros (_ & v & Hv & _ & _ & _ & _ & Hf). injection Hv as <-.
      rewrite Hbf in Hf. injection Hf as ->. reflexivity.
Qed.

Lemma emitted_init (options : Options) (reference : Reference.t) :
  Reference.init reference = true -> emitted options reference = [].
Proof.
  intros Hinit. unfold emitted, visitReference, skips, bindR, lift.
  rewrite Hinit. reflexivity.
Qed.

Lemma emitted_unresolved (options : Options) (reference : Reference.t) :
  Reference.resolved reference = None -> emitted options reference = [].
Proof.
  intros Hres. unfold emitted, visitReference, skips, bindR, lift.
  rewrite Hres. destruct (Reference.init reference); reflexivity.
Qed.

Lemma visitReference_returns (options : Options) (reference : Reference.t) :
  wellFormedReference reference ->
  fst (visitReference options reference []) = Return tt.
Proof.
  intros Hwf. destruct (skips_eligible options reference Hwf) as (b & Hb & _).
  unfold visitReference, bindR, lift. rewrite Hb. destruct b; reflexivity.
Qed.

(** On a well-formed scope graph the walk returns and has emitted, in
    order, what each reference emits. *)
Lemma findVariablesInScope_returns (options : Options) (root : ScopeTree.t)
    (sink : list Diagnostic) :
  wellFormedScope root ->
  findVariablesInScope options root sink =
  (Return tt, sink ++ flat_map (emitted options) (allReferences root)).
Proof.
  unfold wellFormedScope. rewrite findVariablesInScope_references.
  generalize (allReferences root). intros references Hwf. revert sink.
  induction Hwf as [|r rs Hr _ IH]; intros sink; cbn.
  - unfold ret. rewrite app_nil_r. reflexivity.
  - unfold bindR. rewrite visitReference_sink, (visitReference_returns _ _ Hr).
    rewrite IH, app_assoc. reflexivity.
Qed.

Lemma flat_map_nested {A B C : Type} (f : B -> list C) (g : A -> list B) (l : list A) :
  flat_map f (flat_map g l) = flat_map (fun x => flat_map f (g x)) l.
Proof.
  induction l as [|x l IH]; cbn; [reflexivity|].
  rewrite flat_map_app, IH. reflexivity.
Qed.

Lemma In_allReferences (root scope : ScopeTree.t) (r : Reference.t) :
  In scope (preorder root) -> In r (ScopeTree.references scope) ->
  In r (allReferences root).
Proof.
  intros Hs Hr. unfold allReferences. apply in_flat_map. exists scope. tauto.
Qed.

(** The [name] property of a node, read from the node as an object. *)
Lemma toObject_name (n : Node.t) :
  getProp (toObject n) "name" =
  match Node.name n with
  | Some s => JsString s
  | None => JsUndefined
  end.
Proof.
  destruct n as [ty rg p i r k nm]. cbn [toObject getProp Node.name Node.type
    Node.range Node.parent Node.init Node.right Node.kind].
  rewrite lookup_union_r.
  - destruct nm as [s|]; cbn.
    + rewrite lookup_singleton_eq. reflexivity.
    + rewrite lookup_empty. reflexivity.
  - repeat (rewrite lookup_union_None; split).
    + apply lookup_singleton_ne. discriminate.
    + apply lookup_singleton_ne. discriminate.
    + destruct p; [apply lookup_singleton_ne; discriminate | apply lookup_empty].
    + destruct i; [apply lookup_singleton_ne; discriminate | apply lookup_empty].
    + destruct r; [apply lookup_singleton_ne; discriminate | apply lookup_empty].
    + destruct k; [apply lookup_singleton_ne; discriminate | apply lookup_empty].
Qed.

(** C7, as the code has it: the walk only appends to the sink, and every
    diagnostic it appends is the one emitted for a reference of the graph:
    its node is that reference's identifier, its message is the template
    with the placeholder left in, and its data is the identifier node
    itself, whose [name] property is the identifier's name. *)
Theorem diagnostics_shape (options : Options) (root : ScopeTree.t)
    (sink : list Diagnostic) :
  exists es,
    snd (findVariablesInScope options root sink) = sink ++ es
    /\ Forall (fun d =>
                 exists r, In r (allReferences root)
                   /\ emitted options r = [d]
                   /\ node d = Reference.identifier r
                   /\ message d = "'{{name}}' was used before it was defined."
                   /\ data d = Reference.identifier r
                   /\ getProp (toObject (data d)) "name" =
                      match Node.name (Reference.identifier r) with
                      | Some s => JsString s
                      | None => JsUndefined
                      end) es.
Proof.
  destruct (forEach_visitReference options (allReferences root)) as (c & es & Hrun & Hall).
  exists es. split.
  - rewrite findVariablesInScope_references, Hrun. reflexivity.
  - eapply Forall_impl; [exact Hall|]. intros d (r & Hin & He & ->).
    exists r. repeat split; try assumption. cbn [data diagnosticOf].
    apply toObject_name.
Qed.

(** C7, as stated, fails on the sample program: the diagnostic for [f]
    carries the template as its message, not the instantiated text, and
    its data is the whole identifier node, which has more properties than
    [name]. *)
Lemma diagnostics_shape_counterexample :
  exists d,
    In d (snd (findVariablesInScope allEnabled Sample.globalTree []))
    /\ node d = Reference.identifier Sample.fRef
    /\ Node.name (node d) = Some "f"
    /\ message d <> instantiated "f"
    /\ toObject (data d) <> JsObject {[ "name" := JsString "f" ]}.
Proof.
  exists (diagnosticOf Sample.fRef).
  split; [left; reflexivity|]. split; [reflexivity|]. split; [reflexivity|]. split.
  - discriminate.
  - intros H. apply (f_equal (fun v => getProp v "type")) in H.
    vm_compute in H. discriminate H.
Qed.

(** C8: the walk is the loop over the scopes in pre-order, each scope
    once, of the loop over the scope's references; what it emits and how
    it completes do not depend on what was reported before, so that two
    runs emit the same sequence; on a well-formed graph it completes
    normally, having emitted for every scope in pre-order what the scope's
    references emit in their order. *)
Theorem walk_preorder_stable (options : Options) (root : ScopeTree.t) :
  (forall sink,
      findVariablesInScope options root sink =
      forEach (fun scope => forEach (visitReference options) (ScopeTree.references scope))
              (preorder root) sink)
  /\ length (preorder root) = scopeCount root
  /\ (exists c es, forall sink,
         findVariablesInScope options root sink = (c, sink ++ es))
  /\ (wellFormedScope root ->
      forall sink,
        findVariablesInScope options root sink =
        (Return tt,
         sink ++ flat_map (fun scope =>
                             flat_map (emitted options) (ScopeTree.references scope))
                          (preorder root))).
Proof.
  split; [apply findVariablesInScope_preorder|].
  split; [apply preorder_length|]. split.
  - destruct (forEach_visitReference options (allReferences root)) as (c & es & Hrun & _).
    exists c, es. intros sink. rewrite findVariablesInScope_references. apply Hrun.
  - intros Hwf sink. rewrite (findVariablesInScope_returns options root sink Hwf).
    unfold allReferences. rewrite flat_map_nested. reflexivity.
Qed.

Lemma walk_preorder_stable_witness :
  wellFormedScope Sample.loopsTree
  /\ length (preorder Sample.loopsTree) = 2%nat
  /\ forall sink,
       findVariablesInScope allEnabled Sample.loopsTree sink =
       (Return tt, sink ++ [diagnosticOf Sample.kRef; diagnosticOf Sample.bRef]).
Proof.
  assert (Hwf : wellFormedScope Sample.loopsTree).
  { apply checkScope_sound. reflexivity. }
  split; [exact Hwf|].
  destruct (walk_preorder_stable allEnabled Sample.loopsTree) as (_ & Hlen & _ & Hrun).
  split; [exact Hlen|]. exact (Hrun Hwf).
Defined.

(** C9: on well-formed input no operation reads a missing field.
    [isInRange] is total and true exactly for an existing node whose range
    contains the location; [isForbidden] returns for a variable whose
    first definition has a parent; [isInInitializer] returns wherever the
    walk calls it, that is for a variable with an identifier (the walk
    tests [identifiers.length] first), when the declarators it reaches
    have a parent with a parent; on a graph all of whose references are
    well formed the walk returns, and at every reference the whole
    condition of its callback evaluates. *)
Theorem core_total :
  (forall node location, isInRange node location = true <-> contains node location)
  /\ (forall options variable reference,
         definedWithParent variable ->
         exists b, isForbidden options variable reference = Return b)
  /\ (forall variable reference,
         Var.identifiers variable <> [] ->
         declaratorsNested variable reference ->
         exists b, isInInitializer variable reference = Return b)
  /\ (forall options root sink,
         wellFormedScope root ->
         exists sink', findVariablesInScope options root sink = (Return tt, sink'))
  /\ (forall options root r,
         wellFormedScope root -> In r (allReferences root) ->
         exists b, skips options r = Return b).
Proof.
  split; [apply isInRange_spec|].
  split; [apply isForbidden_returns|].
  split; [apply isInInitializer_returns|]. split.
  - intros options root sink Hwf.
    rewrite (findVariablesInScope_returns options root sink Hwf). eauto.
  - intros options root r Hwf Hr. unfold wellFormedScope in Hwf.
    rewrite Forall_forall in Hwf.
    destruct (skips_eligible options r (Hwf r (proj2 (list_elem_of_In _ _) Hr)))
      as (b & Hb & _).
    eauto.
Qed.

Lemma core_total_witness :
  wellFormedScope Sample.loopsTree
  /\ wellFormedScope ambientTree
  /\ (exists b, isForbidden allEnabled Sample.kVar Sample.kRef = Return b)
  /\ (exists b, isInInitializer Sample.bVar Sample.bWrite = Return b)
  /\ (exists sink', findVariablesInScope allEnabled Sample.loopsTree [] = (Return tt, sink'))
  /\ (exists sink', findVariablesInScope allEnabled ambientTree [] = (Return tt, sink'))
  /\ (exists b, skips allEnabled Sample.ambientRef = Return b).
Proof.
  assert (Hwf : wellFormedScope Sample.loopsTree).
  { apply checkScope_sound. reflexivity. }
  assert (Hwf' : wellFormedScope ambientTree).
  { apply checkScope_sound. reflexivity. }
  destruct core_total as (_ & Hforbidden & Hinit & Hwalk & Hskips).
  split; [exact Hwf|]. split; [exact Hwf'|]. repeat split.
  - apply Hforbidden. exists (Def.mk "Variable" (Some Sample.varK)), [], Sample.varK.
    split; reflexivity.
  - apply Hinit; [discriminate|].
    apply (checkReference_sound Sample.bWrite); reflexivity.
  - apply Hwalk, Hwf.
  - apply Hwalk, Hwf'.
  - apply (Hskips allEnabled ambientTree Sample.ambientRef Hwf'). left. reflexivity.
Defined.

(** ** The sample program under several policies *)

Example sample_default :
  reportedNames JsUndefined
  = [Some "f"; Some "k"; Some "b"; Some "C"; Some "x"; Some "T"].
Proof. reflexivity. Qed.

Example sample_nofunc :
  reportedNames (JsString "nofunc")
  = [Some "k"; Some "b"; Some "C"; Some "x"; Some "T"].
Proof. reflexivity. Qed.

Example sample_typedefs_off :
  reportedNames (JsObject {[ "typedefs" := JsBoolean false ]})
  = [Some "f"; Some "k"; Some "b"; Some "C"; Some "x"].
Proof. vm_compute. reflexivity. Qed.

Example sample_variables_off :
  reportedNames (JsObject {[ "variables" := JsBoolean false ]})
  = [Some "f"; Some "C"; Some "x"; Some "T"].
Proof. vm_compute. reflexivity. Qed.

(** * Further properties *)

(** ** Option parsing on every kind of value *)




(** X2: every policy is the parse of the object that spells out its four
    fields, and [defaultOptions[0]] parses to the all-enabled policy. *)
Theorem parseOptions_policyObject (p : Options) :
  parseOptions (policyObject p) = p
  /\ parseOptions defaultOptions = allEnabled.
Proof.
  split.
  - destruct p as [[] [] [] []]; vm_compute; reflexivity.
  - vm_compute. reflexivity.
Qed.

(** ** The classifier as a decision table *)

(** The classifier reads the first definition and the scopes, and applies
    the policy last. *)
Lemma isForbidden_decision (options : Options) (variable : Var.t)
    (reference : Reference.t) (d : Def.t) (rest : list Def.t) :
  Var.defs variable = d :: rest ->
  isForbidden options variable reference
  = decision options d (outerOrTopLevel variable reference).
Proof.
  intros Hdefs.
  unfold isForbidden, isFunction, isOuterClass, isType, isOuterVariable, firstDef, decision.
  rewrite Hdefs. cbn [bindC].
  destruct (String.eqb_spec (Def.type d) "FunctionName") as [Hf|Hf]; [reflexivity|].
  destruct (String.eqb_spec (Def.type d) "ClassName") as [Hc|Hc].
  - rewrite Hc. cbn.
    destruct (outerOrTopLevel variable reference); reflexivity.
  - cbn [negb bindC].
    destruct (String.eqb_spec (Def.type d) "Variable") as [Hv|Hv].
    + destruct (Def.parent d) as [p|]; [|reflexivity]. cbn [bindC negb].
      destruct (kindIsType p && negb (typedefs options)); [reflexivity|].
      destruct (outerOrTopLevel variable reference); reflexivity.
    + reflexivity.
Qed.

Lemma isForbidden_no_defs (options : Options) (variable : Var.t) (reference : Reference.t) :
  Var.defs variable = [] ->
  isForbidden options variable reference = Throw TypeError.
Proof.
  intros Hdefs. unfold isForbidden, isFunction, firstDef. rewrite Hdefs. reflexivity.
Qed.

Lemma decision_throws (options : Options) (d : Def.t) (outer : bool) :
  decision options d outer = Throw TypeError
  <-> Def.type d = "Variable" /\ Def.parent d = None.
Proof.
  unfold decision. split.
  - intros H.
    destruct (String.eqb (Def.type d) "FunctionName"); [discriminate H|].
    destruct (String.eqb (Def.type d) "ClassName"); [discriminate H|].
    destruct (String.eqb_spec (Def.type d) "Variable") as [Hv|Hv]; [|discriminate H].
    split; [exact Hv|]. destruct (Def.parent d); [discriminate H | reflexivity].
  - intros [Hv Hp]. rewrite Hv, Hp. reflexivity.
Qed.

Lemma decision_monotone (o o' : Options) (d : Def.t) (outer : bool) :
  atMost o o' ->
  decision o d outer = Return true -> decision o' d outer = Return true.
Proof.
  intros (Hf & Hc & Hv & Ht). unfold decision.
  destruct (String.eqb (Def.type d) "FunctionName").
  { intros H. injection H as H. rewrite (Hf H). reflexivity. }
  destruct (String.eqb (Def.type d) "ClassName").
  { destruct outer; [|tauto].
    intros H. injection H as H. rewrite (Hc H). reflexivity. }
  destruct (String.eqb (Def.type d) "Variable"); [|tauto].
  destruct (Def.parent d) as [p|]; [|discriminate].
  destruct (kindIsType p); cbn [andb].
  - destruct (typedefs o); cbn [negb]; [|discriminate].
    rewrite (Ht eq_refl). cbn [negb].
    destruct outer; [|tauto].
    intros H. injection H as H. rewrite (Hv H). reflexivity.
  - destruct outer; [|tauto].
    intros H. injection H as H. rewrite (Hv H). reflexivity.
Qed.

Lemma decision_default (d : Def.t) (outer : bool) :
  decision allEnabled d outer <> Return false.
Proof.
  unfold decision, allEnabled. cbn.
  destruct (String.eqb (Def.type d) "FunctionName"); [discriminate|].
  destruct (String.eqb (Def.type d) "ClassName").
  { destruct outer; discriminate. }
  destruct (String.eqb (Def.type d) "Variable"); [|discriminate].
  destruct (Def.parent d) as [p|]; [|discriminate].
  rewrite andb_false_r. destruct outer; discriminate.
Qed.

(** X3: a variable whose first definition is neither a function name, nor
    a class name, nor a variable (a parameter, a catch clause binding, an
    import binding, ...) is forbidden under every policy and from every
    scope. *)
Theorem isForbidden_other_kinds (options : Options) (variable : Var.t)
    (reference : Reference.t) (d : Def.t) (rest : list Def.t) :
  Var.defs variable = d :: rest ->
  Def.type d <> "FunctionName" ->
  Def.type d <> "ClassName" ->
  Def.type d <> "Variable" ->
  isForbidden options variable reference = Return true.
Proof.
  intros Hdefs Hf Hc Hv. rewrite (isForbidden_decision _ _ _ d rest Hdefs).
  unfold decision. apply String.eqb_neq in Hf, Hc, Hv. rewrite Hf, Hc, Hv. reflexivity.
Qed.

Lemma isForbidden_other_kinds_witness :
  isForbidden (mkOptions false false false false)
    (Var.mk [Def.mk "Parameter" None] [Sample.kId] Sample.gScope) Sample.xRef
  = Return true.
Proof.
  apply (isForbidden_other_kinds _ _ _ (Def.mk "Parameter" None) []);
    [reflexivity | discriminate | discriminate | discriminate].
Defined.

(** X4: a class referenced from another variable scope, or declared in
    the global or module scope, is forbidden exactly when [classes] is
    set. *)
Theorem isForbidden_outer_class (options : Options) (variable : Var.t)
    (reference : Reference.t) (d : Def.t) (rest : list Def.t) :
  Var.defs variable = d :: rest ->
  Def.type d = "ClassName" ->
  ~ sameVariableScope variable reference
  \/ topLevel (Scope.variableScope (Var.scope variable)) ->
  isForbidden options variable reference = Return (classes options).
Proof.
  intros Hdefs Hc Hout. apply outerOrTopLevel_true in Hout.
  rewrite (isForbidden_decision _ _ _ d rest Hdefs).
  unfold decision. rewrite Hc, Hout. reflexivity.
Qed.

Lemma isForbidden_outer_class_witness :
  ~ sameVariableScope Later.dVar Later.dReturnRef
  /\ isForbidden (mkOptions true false true true) Later.dVar Later.dReturnRef
     = Return false.
Proof.
  assert (H : ~ sameVariableScope Later.dVar Later.dReturnRef) by discriminate.
  split; [exact H|].
  apply (isForbidden_outer_class (mkOptions true false true true) Later.dVar
           Later.dReturnRef (Def.mk "ClassName" None) []);
    [reflexivity | reflexivity | left; exact H].
Defined.

(** X5: a variable that is not a type alias, referenced from another
    variable scope or declared in the global or module scope, is
    forbidden exactly when [variables] is set, whatever [typedefs] is. *)
Theorem isForbidden_outer_variable (options : Options) (variable : Var.t)
    (reference : Reference.t) (d : Def.t) (rest : list Def.t) (declaration : Node.t) :
  Var.defs variable = d :: rest ->
  Def.type d = "Variable" ->
  Def.parent d = Some declaration ->
  Node.kind declaration <> Some "type" ->
  ~ sameVariableScope variable reference
  \/ topLevel (Scope.variableScope (Var.scope variable)) ->
  isForbidden options variable reference = Return (variables options).
Proof.
  intros Hdefs Hv Hp Hk Hout. apply outerOrTopLevel_true in Hout.
  rewrite (isForbidden_decision _ _ _ d rest Hdefs).
  unfold decision. rewrite Hv, Hp, Hout. cbn.
  destruct (kindIsType declaration) eqn:Hkind.
  - apply kindIsType_spec in Hkind. contradiction.
  - reflexivity.
Qed.

Lemma isForbidden_outer_variable_witness :
  topLevel (Scope.variableScope (Var.scope Sample.kVar))
  /\ isForbidden (mkOptions true true false false) Sample.kVar Sample.kRef
     = Return false.
Proof.
  assert (H : topLevel (Scope.variableScope (Var.scope Sample.kVar)))
    by (right; reflexivity).
  split; [exact H|].
  apply (isForbidden_outer_variable (mkOptions true true false false) Sample.kVar
           Sample.kRef (Def.mk "Variable" (Some Sample.varK)) [] Sample.varK);
    [reflexivity | reflexivity | reflexivity | discriminate | right; exact H].
Defined.

(** X6: the classifier throws exactly on a variable without a definition
    and on a variable whose first definition is a [Variable] definition
    without a parent; the policy, the reference and the scopes play no
    part in it. *)
Theorem isForbidden_throws_iff (options : Options) (variable : Var.t)
    (reference : Reference.t) :
  isForbidden options variable reference = Throw TypeError
  <-> unclassifiable variable.
Proof.
  unfold unclassifiable.
  destruct (Var.defs variable) as [|d rest] eqn:Hdefs.
  - rewrite (isForbidden_no_defs _ _ _ Hdefs). split; [tauto | reflexivity].
  - rewrite (isForbidden_decision _ _ _ d rest Hdefs), decision_throws. split.
    + intros H. right. exists d, rest. tauto.
    + intros [H|(d' & rest' & H & Hv)]; [discriminate H|].
      injection H as <- <-. exact Hv.
Qed.

(** X7: enabling more categories never lifts a prohibition: what is
    forbidden under a policy is forbidden under every policy that enables
    at least the same categories. *)
Theorem isForbidden_monotone (o o' : Options) (variable : Var.t)
    (reference : Reference.t) :
  atMost o o' ->
  isForbidden o variable reference = Return true ->
  isForbidden o' variable reference = Return true.
Proof.
  intros Hle.
  destruct (Var.defs variable) as [|d rest] eqn:Hdefs.
  - rewrite (isForbidden_no_defs _ _ _ Hdefs). discriminate.
  - rewrite !(isForbidden_decision _ _ _ d rest Hdefs).
    apply decision_monotone, Hle.
Qed.

Lemma isForbidden_monotone_witness :
  atMost (mkOptions true true true false) allEnabled
  /\ isForbidden allEnabled Sample.kVar Sample.kRef = Return true.
Proof.
  assert (H : atMost (mkOptions true true true false) allEnabled).
  { unfold atMost. cbn. tauto. }
  split; [exact H|].
  apply (isForbidden_monotone (mkOptions true true true false) allEnabled
           Sample.kVar Sample.kRef H). reflexivity.
Defined.

(** X8: under the default policy the classifier exempts nothing: it never
    returns false. *)
Theorem isForbidden_allEnabled (variable : Var.t) (reference : Reference.t) :
  isForbidden allEnabled variable reference <> Return false.
Proof.
  destruct (Var.defs variable) as [|d rest] eqn:Hdefs.
  - rewrite (isForbidden_no_defs _ _ _ Hdefs). discriminate.
  - rewrite (isForbidden_decision _ _ _ d rest Hdefs). apply decision_default.
Qed.

(** ** Where the detector throws *)

Lemma reached_inv (location : Z) (start n : Node.t) :
  reached location start n ->
  n = start
  \/ (~ isDeclarator start /\ ~ isSentinel start
      /\ ~ (isAssignmentPattern start /\ contains (Node.right start) location)
      /\ exists p, Node.parent start = Some p /\ reached location p n).
Proof.
  induction 1 as [|m q Hr IH Hd Hs Ha Hq]; [left; reflexivity|]. right.
  destruct IH as [->|(Hd' & Hs' & Ha' & p & Hp & Hrp)].
  - repeat split; try assumption. exists q. split; [exact Hq | apply reached_start].
  - repeat split; try assumption. exists p. split; [exact Hp|].
    eapply reached_parent; eassumption.
Qed.

Lemma initializerLoop_throws_iff (location : Z) (node : Node.t) :
  initializerLoop location node = Throw TypeError
  <-> exists n, reached location node n /\ orphanDeclarator location n.
Proof.
  induction node as [node IH] using Node_parent_ind.
  rewrite initializerLoop_eq. unfold orphanDeclarator.
  destruct (String.eqb_spec (Node.type node) "VariableDeclarator") as [Hd|Hd].
  - (* the loop stops here *)
    assert (Hhere : forall n, reached location node n -> n = node).
    { intros n Hr. destruct (reached_inv _ _ _ Hr) as [H|(H & _)]; [exact H|].
      contradiction. }
    destruct (isInRange (Node.init node) location) eqn:Hinit.
    + split; [discriminate|]. intros (n & Hr & _ & Hnc & _).
      rewrite (Hhere n Hr) in Hnc. exfalso. apply Hnc, isInRange_spec, Hinit.
    + assert (Hnc : ~ contains (Node.init node) location).
      { rewrite <- isInRange_spec, Hinit. discriminate. }
      destruct (Node.parent node) as [p|] eqn:Hp.
      * destruct (Node.parent p) as [g|] eqn:Hg.
        -- split.
           ++ destruct (FOR_IN_OF_TYPE _ && _); discriminate.
           ++ intros (n & Hr & _ & _ & Hng). rewrite (Hhere n Hr) in Hng.
              exfalso. apply Hng. exists p, g. tauto.
        -- split; [|reflexivity]. intros _. exists node.
           split; [apply reached_start|]. repeat split; try assumption.
           intros (p' & g' & Hp' & Hg'). congruence.
      * split; [|reflexivity]. intros _. exists node.
        split; [apply reached_start|]. repeat split; try assumption.
        intros (p' & g' & Hp' & Hg'). congruence.
  - cbn zeta.
    assert (Hup : forall p, Node.parent node = Some p ->
                   ~ isSentinel node ->
                   ~ (isAssignmentPattern node /\ contains (Node.right node) location) ->
                   (initializerLoop location p = Throw TypeError
                    <-> exists n, reached location node n
                                  /\ isDeclarator n /\ ~ contains (Node.init n) location
                                  /\ ~ hasGrandparent n)).
    { intros p Hp Hs Ha. rewrite (IH p Hp). unfold orphanDeclarator. split.
      - intros (n & Hr & Ho). exists n. split; [|exact Ho].
        apply (reached_from_parent location node p n); assumption.
      - intros (n & Hr & Ho). exists n. split; [|exact Ho].
        destruct (reached_inv _ _ _ Hr) as [->|(_ & _ & _ & p' & Hp' & Hr')].
        + destruct Ho as [Ho _]. contradiction.
        + congruence. }
    assert (Hstop : (exists n, reached location node n
                               /\ isDeclarator n /\ ~ contains (Node.init n) location
                               /\ ~ hasGrandparent n) ->
                    exists p, Node.parent node = Some p
                              /\ ~ isSentinel node
                              /\ ~ (isAssignmentPattern node
                                    /\ contains (Node.right node) location)).
    { intros (n & Hr & Ho & _).
      destruct (reached_inv _ _ _ Hr) as [->|(_ & Hs & Ha & p & Hp & _)];
        [contradiction|].
      exists p. tauto. }
    destruct (String.eqb_spec (Node.type node) "AssignmentPattern") as [Ha|Ha].
    + destruct (isInRange (Node.right node) location) eqn:Hright.
      * split; [discriminate|]. intros H.
        destruct (Hstop H) as (p & _ & _ & Hn). exfalso. apply Hn.
        split; [exact Ha | apply isInRange_spec, Hright].
      * destruct (Node.parent node) as [p|] eqn:Hp.
        -- apply (Hup p eq_refl); [apply pattern_not_sentinel, Ha|].
           rewrite <- isInRange_spec, Hright. intros [_ H]. discriminate H.
        -- split; [discriminate|]. intros H.
           destruct (Hstop H) as (p & Hp' & _). discriminate Hp'.
    + destruct (SENTINEL_TYPE (Node.type node)) eqn:Hs.
      * split; [discriminate|]. intros H.
        destruct (Hstop H) as (p & _ & Hn & _). exfalso.
        apply Hn, SENTINEL_TYPE_spec, Hs.
      * destruct (Node.parent node) as [p|] eqn:Hp.
        -- apply (Hup p eq_refl).
           ++ rewrite <- SENTINEL_TYPE_spec, Hs. discriminate.
           ++ intros [H _]. contradiction.
        -- split; [discriminate|]. intros H.
           destruct (Hstop H) as (p & Hp' & _). discriminate Hp'.
Qed.

(** X9: the detector throws exactly when the variable is of the
    reference's own scope and either has no identifier, or the walk from
    its defining identifier reaches a declarator whose initializer does
    not contain the location and that has no parent with a parent. *)
Theorem isInInitializer_throws_iff (variable : Var.t) (reference : Reference.t) :
  isInInitializer variable reference = Throw TypeError
  <-> Scope.id (Scope.self (Var.scope variable))
      = Scope.id (Scope.self (Reference.from reference))
      /\ (Var.identifiers variable = []
          \/ exists id0 rest start n,
               Var.identifiers variable = id0 :: rest
               /\ Node.parent id0 = Some start
               /\ reached (endOf (Reference.identifier reference)) start n
               /\ orphanDeclarator (endOf (Reference.identifier reference)) n).
Proof.
  unfold isInInitializer, Scope.same.
  destruct (Nat.eqb_spec (Scope.id (Scope.self (Var.scope variable)))
              (Scope.id (Scope.self (Reference.from reference)))) as [He|Hne]; cbn [negb].
  2:{ split; [discriminate | tauto]. }
  destruct (Var.identifiers variable) as [|id0 rest] eqn:Hid.
  { split; [tauto | reflexivity]. }
  cbn zeta. destruct (Node.parent id0) as [start|] eqn:Hstart.
  - fold (endOf (Reference.identifier reference)).
    rewrite initializerLoop_throws_iff. split.
    + intros (n & Hr & Ho). split; [exact He|]. right.
      exists id0, rest, start, n. tauto.
    + intros (_ & [H|(i & l & s' & n & Hi & Hs & Hr & Ho)]); [discriminate H|].
      injection Hi as <- <-. rewrite Hstart in Hs. injection Hs as <-.
      exists n. tauto.
  - split; [discriminate|].
    intros (_ & [H|(i & l & s' & n & Hi & Hs & _)]); [discriminate H|].
    injection Hi as <- <-. congruence.
Qed.

(** ** The callback, policy apart *)

Lemma skips_asks (options : Options) (reference : Reference.t) :
  skips options reference =
  (a <- asks reference ;;
   match a with
   | None => Return true
   | Some variable =>
       f <- isForbidden options variable reference ;; Return (negb f)
   end).
Proof.
  unfold skips, asks.
  destruct (Reference.init reference); [reflexivity|].
  destruct (Reference.resolved reference) as [variable|]; [|reflexivity].
  destruct (Var.identifiers variable) as [|id0 rest]; [reflexivity|].
  destruct (snd (Node.range id0) <? snd (Node.range (Reference.identifier reference))).
  - destruct (isInInitializer variable reference) as [[|]|e]; reflexivity.
  - reflexivity.
Qed.

(** The classifier is asked about a variable exactly for a resolved
    reference that is no initialization, to a variable with an identifier,
    used no later than declared or inside its own initializer. *)
Lemma asks_some (reference : Reference.t) (variable : Var.t) :
  asks reference = Return (Some variable)
  <-> Reference.init reference = false
      /\ Reference.resolved reference = Some variable
      /\ exists id0 rest,
           Var.identifiers variable = id0 :: rest
           /\ (endOf (Reference.identifier reference) <= endOf id0
               \/ isInInitializer variable reference = Return true).
Proof.
  unfold asks, endOf.
  destruct (Reference.init reference).
  { split; [discriminate|]. intros [H _]. discriminate H. }
  destruct (Reference.resolved reference) as [v|].
  2:{ split; [discriminate|]. intros (_ & H & _). discriminate H. }
  destruct (Var.identifiers v) as [|id0 rest] eqn:Hid.
  { split; [discriminate|]. intros (_ & H & i & l & Hi & _).
    injection H as <-. congruence. }
  destruct (Z.ltb_spec (snd (Node.range id0))
              (snd (Node.range (Reference.identifier reference)))) as [Hlt|Hge].
  - destruct (isInInitializer v reference) as [[|]|e] eqn:Hin; cbn; split.
    + intros H. injection H as <-. split; [reflexivity|]. split; [reflexivity|].
      exists id0, rest. split; [exact Hid|]. right. exact Hin.
    + intros (_ & H & _). congruence.
    + discriminate.
    + intros (_ & H & i & l & Hi & Hor). injection H as <-.
      rewrite Hid in Hi. injection Hi as <- <-.
      destruct Hor as [Hle|Ht]; [lia | congruence].
    + discriminate.
    + intros (_ & H & i & l & Hi & Hor). injection H as <-.
      rewrite Hid in Hi. injection Hi as <- <-.
      destruct Hor as [Hle|Ht]; [lia | congruence].
  - cbn. split.
    + intros H. injection H as <-. split; [reflexivity|]. split; [reflexivity|].
      exists id0, rest. split; [exact Hid|]. left. lia.
    + intros (_ & H & _). congruence.
Qed.

Lemma visitable_asks (reference : Reference.t) :
  visitable reference ->
  exists a, asks reference = Return a
            /\ forall variable, a = Some variable -> ~ unclassifiable variable.
Proof.
  unfold visitable, asks. intros Hv.
  destruct (Reference.init reference).
  { exists None. split; [reflexivity | discriminate]. }
  destruct (Reference.resolved reference) as [v|].
  2:{ exists None. split; [reflexivity | discriminate]. }
  destruct (Var.identifiers v) as [|id0 rest] eqn:Hid.
  { exists None. split; [reflexivity | discriminate]. }
  destruct (Hv eq_refl v id0 rest eq_refl Hid) as [Hnest Hcl].
  destruct (isInInitializer_returns v reference) as [b Hb];
    [congruence | exact Hnest |].
  rewrite Hb. cbn [bindC].
  destruct (_ <? _); cbn [bindC]; [destruct b; cbn [negb]|].
  - exists (Some v). split; [reflexivity|]. intros v' H. injection H as <-. exact Hcl.
  - exists None. split; [reflexivity | discriminate].
  - exists (Some v). split; [reflexivity|]. intros v' H. injection H as <-. exact Hcl.
Qed.

Lemma isForbidden_classifiable (options : Options) (variable : Var.t)
    (reference : Reference.t) :
  ~ unclassifiable variable ->
  exists b, isForbidden options variable reference = Return b.
Proof.
  intros Hcl. destruct (isForbidden options variable reference) as [b|[]] eqn:H.
  - eauto.
  - exfalso. apply Hcl. unfold unclassifiable.
    destruct (Var.defs variable) as [|d rest] eqn:Hdefs; [left; reflexivity|].
    right. exists d, rest. split; [reflexivity|].
    rewrite (isForbidden_decision _ _ _ d rest Hdefs) in H.
    apply decision_throws in H. exact H.
Qed.

Lemma visitable_skips (options : Options) (reference : Reference.t) :
  visitable reference -> exists b, skips options reference = Return b.
Proof.
  intros Hv. rewrite skips_asks.
  destruct (visitable_asks reference Hv) as (a & Ha & Hcl). rewrite Ha. cbn [bindC].
  destruct a as [v|]; [|eauto].
  destruct (isForbidden_classifiable options v reference (Hcl v eq_refl)) as [b Hb].
  rewrite Hb. cbn. eauto.
Qed.

Lemma checkVisitable_sound (reference : Reference.t) :
  checkVisitable reference = true -> visitable reference.
Proof.
  unfold checkVisitable, visitable. intros Hc Hinit v id0 rest Hres Hid.
  rewrite Hinit, Hres, Hid in Hc. cbn [orb] in Hc.
  destruct (Var.defs v) as [|d ds] eqn:Hdefs; [discriminate Hc|].
  apply andb_true_iff in Hc. destruct Hc as [Hd Hn]. split.
  - intros i l start n Hi Hstart Hr Hdecl. rewrite Hid in Hi. injection Hi as <- <-.
    rewrite Hstart in Hn. exact (chainNested_sound _ start n Hn Hr Hdecl).
  - intros [H|(d' & ds' & H & Ht & Hp)]; [congruence|].
    rewrite Hdefs in H. injection H as <- <-. rewrite Ht, Hp in Hd. discriminate Hd.
Qed.

Lemma visitReference_completion (options : Options) (reference : Reference.t) :
  fst (visitReference options reference [])
  = (_ <- skips options reference ;; Return tt).
Proof.
  unfold visitReference, bindR, lift, ret, report.
  destruct (skips options reference) as [[|]|e]; reflexivity.
Qed.

Lemma forEach_returns (options : Options) (references : list Reference.t)
    (sink : list Diagnostic) :
  Forall (fun r => exists b, skips options r = Return b) references ->
  forEach (visitReference options) references sink
  = (Return tt, sink ++ flat_map (emitted options) references).
Proof.
  intros H. revert sink. induction H as [|r rs (b & Hb) _ IH]; intros sink; cbn.
  - unfold ret. rewrite app_nil_r. reflexivity.
  - unfold bindR. rewrite visitReference_sink, visitReference_completion, Hb.
    cbn [bindC]. rewrite IH, app_assoc. reflexivity.
Qed.

Lemma Forall_visitable_skips (options : Options) (references : list Reference.t) :
  Forall visitable references ->
  Forall (fun r => exists b, skips options r = Return b) references.
Proof.
  intros H. eapply Forall_impl; [exact H|]. intros r. apply visitable_skips.
Qed.

(** ** The walk on graphs as scope analysis builds them *)

(** X10: the walk returns, having emitted what every reference emits in
    pre-order, as soon as every reference that gets past the first three
    tests (no initialization, resolved, variable with an identifier) has
    nested declarators and a classifiable first definition.  Variables
    without an identifier, and function or class definitions without a
    parent, do no harm. *)
Theorem walk_returns_visitable (options : Options) (root : ScopeTree.t)
    (sink : list Diagnostic) :
  Forall visitable (allReferences root) ->
  findVariablesInScope options root sink
  = (Return tt, sink ++ flat_map (emitted options) (allReferences root)).
Proof.
  intros H. rewrite findVariablesInScope_references.
  apply forEach_returns, Forall_visitable_skips, H.
Qed.

Lemma walk_returns_visitable_witness :
  Forall visitable (allReferences Sample.globalTree)
  /\ findVariablesInScope (mkOptions true false true true) Sample.globalTree []
     = (Return tt,
        map diagnosticOf [Sample.fRef; Sample.kRef; Sample.bRef;
                          Sample.cRef; Sample.xRef; Sample.tRef]).
Proof.
  assert (H : Forall visitable (allReferences Sample.globalTree)).
  { apply Forall_forall. intros r Hr. apply checkVisitable_sound.
    assert (Hall : forallb checkVisitable (allReferences Sample.globalTree) = true)
      by reflexivity.
    rewrite forallb_forall in Hall. apply Hall. apply list_elem_of_In, Hr. }
  split; [exact H|].
  exact (walk_returns_visitable (mkOptions true false true true) Sample.globalTree [] H).
Defined.

(** X11: an exception ends the walk where it is raised: the diagnostics
    of the references before the one that throws are in the sink, and
    nothing is reported for that reference or for any after it. *)
Theorem walk_stops_at_exception (options : Options) (root : ScopeTree.t)
    (before after : list Reference.t) (r : Reference.t) (sink : list Diagnostic) :
  allReferences root = before ++ r :: after ->
  Forall visitable before ->
  skips options r = Throw TypeError ->
  findVariablesInScope options root sink
  = (Throw TypeError, sink ++ flat_map (emitted options) before).
Proof.
  intros Hrefs Hbefore Hthrow.
  rewrite findVariablesInScope_references, Hrefs, forEach_app. unfold bindR at 1.
  rewrite (forEach_returns options before sink (Forall_visitable_skips _ _ Hbefore)).
  cbn. unfold bindR. rewrite visitReference_sink, visitReference_completion, Hthrow.
  cbn [bindC]. unfold emitted, visitReference, bindR, lift. rewrite Hthrow.
  cbn. rewrite app_nil_r. reflexivity.
Qed.

Lemma walk_stops_at_exception_witness :
  allReferences Broken.tree
  = [Sample.fRef] ++ Broken.lostRef
      :: [Sample.kWrite; Sample.kRef; Sample.cRef; Sample.xRef; Sample.tRef; Sample.xWrite]
  /\ skips allEnabled Broken.lostRef = Throw TypeError
  /\ findVariablesInScope allEnabled Broken.tree []
     = (Throw TypeError, [diagnosticOf Sample.fRef]).
Proof.
  split; [reflexivity|]. split; [reflexivity|].
  apply (walk_stops_at_exception allEnabled Broken.tree [Sample.fRef]
           [Sample.kWrite; Sample.kRef; Sample.cRef; Sample.xRef; Sample.tRef; Sample.xWrite]
           Broken.lostRef []); [reflexivity | | reflexivity].
  constructor; [apply checkVisitable_sound; reflexivity | constructor].
Defined.

(** ** What is never reported *)

Lemma sentinel_loop (location : Z) (p : Node.t) :
  isSentinel p -> initializerLoop location p = Return false.
Proof.
  intros Hs. rewrite initializerLoop_eq.
  destruct (String.eqb_spec (Node.type p) "VariableDeclarator") as [Hd|_].
  { exfalso. exact (declarator_not_sentinel p Hd Hs). }
  cbn zeta.
  destruct (String.eqb_spec (Node.type p) "AssignmentPattern") as [Ha|_].
  { exfalso. exact (pattern_not_sentinel p Ha Hs). }
  apply SENTINEL_TYPE_spec in Hs. rewrite Hs. reflexivity.
Qed.

(** X12: a use that ends after the variable's defining identifier is
    never reported, and never raises an exception, when the reference
    comes from another scope than the variable's, or when the defining
    identifier sits directly under a sentinel node (the name of a function
    or class declaration, a catch parameter, an import) or has no parent:
    this holds under every policy and whatever the definitions are. *)
Theorem later_use_skipped (options : Options) (reference : Reference.t)
    (variable : Var.t) (id0 : Node.t) (rest : list Node.t) (sink : list Diagnostic) :
  Reference.resolved reference = Some variable ->
  Var.identifiers variable = id0 :: rest ->
  endOf id0 < endOf (Reference.identifier reference) ->
  Scope.id (Scope.self (Var.scope variable))
    <> Scope.id (Scope.self (Reference.from reference))
  \/ Node.parent id0 = None
  \/ (exists p, Node.parent id0 = Some p /\ isSentinel p) ->
  visitReference options reference sink = (Return tt, sink).
Proof.
  intros Hres Hid Hlt Hcase.
  assert (Hin : isInInitializer variable reference = Return false).
  { unfold isInInitializer, Scope.same. rewrite Hid. cbn zeta.
    destruct (Nat.eqb_spec (Scope.id (Scope.self (Var.scope variable)))
                (Scope.id (Scope.self (Reference.from reference)))) as [He|Hne];
      cbn [negb]; [|reflexivity].
    destruct Hcase as [Hne|[Hnone|(p & Hp & Hs)]]; [contradiction| |].
    - rewrite Hnone. reflexivity.
    - rewrite Hp. apply sentinel_loop, Hs. }
  unfold visitReference, bindR, lift, skips. rewrite Hres, Hid, Hin.
  unfold endOf in Hlt. apply Z.ltb_lt in Hlt. rewrite Hlt. cbn.
  destruct (Reference.init reference); reflexivity.
Qed.

Lemma later_use_skipped_witness :
  endOf Later.dId < endOf (Reference.identifier Later.dNewRef)
  /\ visitReference allEnabled Later.dNewRef [] = (Return tt, [])
  /\ visitReference allEnabled Later.dReturnRef [] = (Return tt, []).
Proof.
  split; [reflexivity|]. split.
  - apply (later_use_skipped allEnabled Later.dNewRef Later.dVar Later.dId [] []);
      [reflexivity | reflexivity | reflexivity |].
    right. right. eexists. split; [reflexivity|]. cbn. tauto.
  - apply (later_use_skipped allEnabled Later.dReturnRef Later.dVar Later.dId [] []);
      [reflexivity | reflexivity | reflexivity |].
    left. discriminate.
Defined.

(** X13: under the default policy the classifier removes nothing: a
    reference whose variable can be classified is reported exactly when
    it is no initialization, is resolved to a variable with an identifier,
    and is used no later than the defining identifier ends or inside the
    variable's own initializer. *)
Theorem default_policy_reports (reference : Reference.t) :
  (forall variable, Reference.resolved reference = Some variable ->
                    ~ unclassifiable variable) ->
  emitted allEnabled reference = [diagnosticOf reference]
  <-> Reference.init reference = false
      /\ exists variable id0 rest,
           Reference.resolved reference = Some variable
           /\ Var.identifiers variable = id0 :: rest
           /\ (endOf (Reference.identifier reference) <= endOf id0
               \/ isInInitializer variable reference = Return true).
Proof.
  intros Hcl.
  assert (Hemit : emitted allEnabled reference = [diagnosticOf reference]
                  <-> skips allEnabled reference = Return false).
  { destruct (emitted_cases allEnabled reference) as [[Hs He]|[Hs He]]; rewrite He.
    - tauto.
    - split; [discriminate | contradiction]. }
  rewrite Hemit, skips_asks. split.
  - destruct (asks reference) as [[v|]|e] eqn:Ha; cbn [bindC]; try discriminate.
    intros _. apply asks_some in Ha. destruct Ha as (Hi & Hr & id0 & rest & Hid & Hor).
    split; [exact Hi|]. exists v, id0, rest. tauto.
  - intros (Hi & v & id0 & rest & Hr & Hid & Hor).
    assert (Ha : asks reference = Return (Some v)).
    { apply asks_some. split; [exact Hi|]. split; [exact Hr|]. eauto. }
    rewrite Ha. cbn [bindC].
    destruct (isForbidden_classifiable allEnabled v reference (Hcl v Hr)) as [b Hb].
    rewrite Hb. cbn. destruct b; [reflexivity|]. exfalso.
    destruct (Var.defs v) as [|d ds] eqn:Hdefs.
    + rewrite (isForbidden_no_defs _ _ _ Hdefs) in Hb. discriminate Hb.
    + rewrite (isForbidden_decision _ _ _ d ds Hdefs) in Hb.
      exact (decision_default _ _ Hb).
Qed.

Lemma default_policy_reports_witness :
  (forall variable, Reference.resolved Sample.fRef = Some variable ->
                    ~ unclassifiable variable)
  /\ (emitted allEnabled Sample.fRef = [diagnosticOf Sample.fRef]
      <-> Reference.init Sample.fRef = false
          /\ exists variable id0 rest,
               Reference.resolved Sample.fRef = Some variable
               /\ Var.identifiers variable = id0 :: rest
               /\ (endOf (Reference.identifier Sample.fRef) <= endOf id0
                   \/ isInInitializer variable Sample.fRef = Return true)).
Proof.
  assert (H : forall variable, Reference.resolved Sample.fRef = Some variable ->
                               ~ unclassifiable variable).
  { intros v Hv. injection Hv as <-.
    intros [H|(d & rest & H & Ht & _)]; [discriminate H|].
    injection H as <- <-. discriminate Ht. }
  split; [exact H|]. exact (default_policy_reports Sample.fRef H).
Defined.

(** ** The policy and the walk *)

Lemma emitted_skips (options : Options) (reference : Reference.t) :
  emitted options reference =
  match skips options reference with
  | Return false => [diagnosticOf reference]
  | _ => []
  end.
Proof.
  unfold emitted, visitReference, bindR, lift, ret, report.
  destruct (skips options reference) as [[|]|e]; reflexivity.
Qed.

Lemma isForbidden_throws_policy (o o' : Options) (variable : Var.t)
    (reference : Reference.t) :
  isForbidden o variable reference = Throw TypeError ->
  isForbidden o' variable reference = Throw TypeError.
Proof.
  destruct (Var.defs variable) as [|d rest] eqn:Hdefs.
  - rewrite !(isForbidden_no_defs _ _ _ Hdefs). tauto.
  - rewrite !(isForbidden_decision _ _ _ d rest Hdefs), !decision_throws. tauto.
Qed.

Lemma skips_throws_policy (o o' : Options) (reference : Reference.t) :
  skips o reference = Throw TypeError -> skips o' reference = Throw TypeError.
Proof.
  rewrite !skips_asks. destruct (asks reference) as [[v|]|[]]; cbn [bindC]; try tauto.
  destruct (isForbidden o v reference) as [b|[]] eqn:H; [discriminate|].
  rewrite (isForbidden_throws_policy o o' v reference H). tauto.
Qed.

Lemma skips_monotone (o o' : Options) (reference : Reference.t) :
  atMost o o' ->
  skips o reference = Return false -> skips o' reference = Return false.
Proof.
  intros Hle. rewrite !skips_asks.
  destruct (asks reference) as [[v|]|[]]; cbn [bindC]; try tauto.
  destruct (isForbidden o v reference) as [[|]|[]] eqn:H; try discriminate.
  destruct (Var.defs v) as [|d rest] eqn:Hdefs.
  - rewrite (isForbidden_no_defs _ _ _ Hdefs) in H. discriminate H.
  - rewrite (isForbidden_decision o _ _ d rest Hdefs) in H.
    rewrite (isForbidden_decision o' _ _ d rest Hdefs).
    rewrite (decision_monotone o o' d _ Hle H). reflexivity.
Qed.

Lemma visitReference_monotone (o o' : Options) (reference : Reference.t) :
  atMost o o' ->
  fst (visitReference o reference []) = fst (visitReference o' reference [])
  /\ sublist (emitted o reference) (emitted o' reference).
Proof.
  intros Hle. rewrite !visitReference_completion, !emitted_skips.
  destruct (skips o reference) as [[|]|[]] eqn:H.
  - split; [|apply sublist_nil_l].
    destruct (skips o' reference) as [b|[]] eqn:H'; [reflexivity|].
    rewrite (skips_throws_policy o' o reference H') in H. discriminate H.
  - rewrite (skips_monotone o o' reference Hle H). split; reflexivity.
  - rewrite (skips_throws_policy o o' reference H). split; reflexivity.
Qed.

(** X14: disabling categories only removes diagnostics: under a policy
    that enables at least the categories of another, the walk completes in
    the same way (returns, or throws) and the diagnostics of the weaker
    policy are a subsequence, in order, of those of the stronger one. *)
Theorem walk_policy_monotone (o o' : Options) (root : ScopeTree.t) :
  atMost o o' ->
  exists c es es',
    (forall sink, findVariablesInScope o root sink = (c, sink ++ es))
    /\ (forall sink, findVariablesInScope o' root sink = (c, sink ++ es'))
    /\ sublist es es'.
Proof.
  intros Hle.
  assert (H : forall references,
             exists c es es',
               (forall sink, forEach (visitReference o) references sink = (c, sink ++ es))
               /\ (forall sink, forEach (visitReference o') references sink = (c, sink ++ es'))
               /\ sublist es es').
  { induction references as [|r rs (c & es & es' & Hrun & Hrun' & Hsub)].
    - exists (Return tt), [], []. repeat split; try reflexivity;
        intros sink; cbn; unfold ret; rewrite app_nil_r; reflexivity.
    - destruct (visitReference_monotone o o' r Hle) as [Hfst Hemit].
      destruct (fst (visitReference o r [])) as [[]|e] eqn:Ho.
      + exists c, (emitted o r ++ es), (emitted o' r ++ es'). repeat split.
        * intros sink. cbn. unfold bindR. rewrite visitReference_sink, Ho.
          rewrite Hrun, app_assoc. reflexivity.
        * intros sink. cbn. unfold bindR. rewrite visitReference_sink, <- Hfst.
          rewrite Hrun', app_assoc. reflexivity.
        * apply sublist_app; assumption.
      + exists (Throw e), (emitted o r), (emitted o' r). repeat split.
        * intros sink. cbn. unfold bindR. rewrite visitReference_sink, Ho. reflexivity.
        * intros sink. cbn. unfold bindR. rewrite visitReference_sink, <- Hfst.
          reflexivity.
        * exact Hemit. }
  destruct (H (allReferences root)) as (c & es & es' & Hrun & Hrun' & Hsub).
  exists c, es, es'. repeat split; try assumption;
    intros sink; rewrite findVariablesInScope_references; auto.
Qed.

Lemma walk_policy_monotone_witness :
  atMost (parseOptions (JsString "nofunc")) allEnabled
  /\ exists c es es',
       (forall sink, findVariablesInScope (parseOptions (JsString "nofunc"))
                       Sample.globalTree sink = (c, sink ++ es))
       /\ (forall sink, findVariablesInScope allEnabled Sample.globalTree sink
                        = (c, sink ++ es'))
       /\ sublist es es'.
Proof.
  assert (H : atMost (parseOptions (JsString "nofunc")) allEnabled).
  { unfold atMost. cbn. tauto. }
  split; [exact H|].
  exact (walk_policy_monotone (parseOptions (JsString "nofunc")) allEnabled
           Sample.globalTree H).
Defined.

(** X15: the walk reports at most one diagnostic per reference: whether
    it returns or throws, it never adds more diagnostics than the scope
    tree has references. *)
Theorem diagnostics_bounded (options : Options) (root : ScopeTree.t) :
  exists c es,
    (forall sink, findVariablesInScope options root sink = (c, sink ++ es))
    /\ (length es <= length (allReferences root))%nat.
Proof.
  assert (H : forall references,
             exists c es,
               (forall sink, forEach (visitReference options) references sink
                             = (c, sink ++ es))
               /\ (length es <= length references)%nat).
  { induction references as [|r rs (c & es & Hrun & Hlen)].
    - exists (Return tt), []. split; [|reflexivity].
      intros sink. cbn. unfold ret. rewrite app_nil_r. reflexivity.
    - assert (Hone : (length (emitted options r) <= 1)%nat).
      { rewrite emitted_skips. destruct (skips options r) as [[|]|e]; cbn; lia. }
      destruct (fst (visitReference options r [])) as [[]|e] eqn:Ho.
      + exists c, (emitted options r ++ es). split.
        * intros sink. cbn. unfold bindR. rewrite visitReference_sink, Ho.
          rewrite Hrun, app_assoc. reflexivity.
        * rewrite length_app. cbn [length]. lia.
      + exists (Throw e), (emitted options r). split.
        * intros sink. cbn. unfold bindR. rewrite visitReference_sink, Ho. reflexivity.
        * cbn [length]. lia. }
  destruct (H (allReferences root)) as (c & es & Hrun & Hlen).
  exists c, es. split; [|exact Hlen].
  intros sink. rewrite findVariablesInScope_references. apply Hrun.
Qed.

Lemma flat_map_unless {A B : Type} (p : A -> bool) (f g : A -> list B) (l : list A) :
  (forall x, f x = if p x then [] else g x) ->
  flat_map f l = flat_map g (List.filter (fun x => negb (p x)) l).
Proof.
  intros H. induction l as [|x l IH]; cbn; [reflexivity|].
  rewrite H, IH. destruct (p x); reflexivity.
Qed.

Lemma emitted_functions_flag (c v t : bool) (reference : Reference.t) :
  emitted (mkOptions false c v t) reference
  = if refersToFunction reference then []
    else emitted (mkOptions true c v t) reference.
Proof.
  rewrite !emitted_skips, !skips_asks. unfold refersToFunction.
  destruct (asks reference) as [[var|]|e] eqn:Ha; cbn [bindC].
  - apply asks_some in Ha. destruct Ha as (_ & Hres & _). rewrite Hres.
    destruct (Var.defs var) as [|d rest] eqn:Hdefs.
    + rewrite !(isForbidden_no_defs _ _ _ Hdefs). reflexivity.
    + rewrite !(isForbidden_decision _ _ _ d rest Hdefs). unfold decision.
      destruct (String.eqb (Def.type d) "FunctionName"); reflexivity.
  - repeat match goal with |- context [match ?x with _ => _ end] => destruct x end;
      reflexivity.
  - repeat match goal with |- context [match ?x with _ => _ end] => destruct x end;
      reflexivity.
Qed.

Lemma emitted_typedefs_flag (f c v : bool) (reference : Reference.t) :
  emitted (mkOptions f c v false) reference
  = if refersToTypeAlias reference then []
    else emitted (mkOptions f c v true) reference.
Proof.
  rewrite !emitted_skips, !skips_asks. unfold refersToTypeAlias.
  destruct (asks reference) as [[var|]|e] eqn:Ha; cbn [bindC].
  - apply asks_some in Ha. destruct Ha as (_ & Hres & _). rewrite Hres.
    destruct (Var.defs var) as [|d rest] eqn:Hdefs.
    + rewrite !(isForbidden_no_defs _ _ _ Hdefs). reflexivity.
    + rewrite !(isForbidden_decision _ _ _ d rest Hdefs). unfold decision.
      destruct (String.eqb_spec (Def.type d) "Variable") as [Hv|Hv].
      * rewrite Hv. cbn. destruct (Def.parent d) as [p|]; [|reflexivity].
        destruct (kindIsType p); cbn; [reflexivity|].
        destruct (outerOrTopLevel var reference); reflexivity.
      * cbn [andb].
        destruct (String.eqb (Def.type d) "FunctionName"); [reflexivity|].
        destruct (String.eqb (Def.type d) "ClassName"); reflexivity.
  - repeat match goal with |- context [match ?x with _ => _ end] => destruct x end;
      reflexivity.
  - repeat match goal with |- context [match ?x with _ => _ end] => destruct x end;
      reflexivity.
Qed.

(** X16: the [functions] field decides about functions and about nothing
    else: on a graph the walk can visit, switching it off (as ["nofunc"]
    does) leaves exactly the diagnostics of the references that are not to
    a variable first defined as a function, in the same order. *)
Theorem functions_flag_filters (c v t : bool) (root : ScopeTree.t)
    (sink : list Diagnostic) :
  Forall visitable (allReferences root) ->
  findVariablesInScope (mkOptions false c v t) root sink
  = (Return tt,
     sink ++ flat_map (emitted (mkOptions true c v t))
                      (List.filter (fun r => negb (refersToFunction r))
                                   (allReferences root))).
Proof.
  intros H. rewrite findVariablesInScope_references.
  rewrite (forEach_returns _ _ _ (Forall_visitable_skips _ _ H)).
  rewrite (flat_map_unless refersToFunction _ (emitted (mkOptions true c v t)));
    [reflexivity|].
  apply emitted_functions_flag.
Qed.

Lemma functions_flag_filters_witness :
  Forall visitable (allReferences Sample.globalTree)
  /\ findVariablesInScope (parseOptions (JsString "nofunc")) Sample.globalTree []
     = (Return tt,
        map diagnosticOf [Sample.kRef; Sample.bRef; Sample.cRef; Sample.xRef; Sample.tRef]).
Proof.
  assert (H : Forall visitable (allReferences Sample.globalTree)).
  { apply Forall_forall. intros r Hr. apply checkVisitable_sound.
    assert (Hall : forallb checkVisitable (allReferences Sample.globalTree) = true)
      by reflexivity.
    rewrite forallb_forall in Hall. apply Hall. apply list_elem_of_In, Hr. }
  split; [exact H|].
  exact (functions_flag_filters true true true Sample.globalTree [] H).
Defined.

(** X17: the [typedefs] field decides about type aliases and about
    nothing else: on a graph the walk can visit, switching it off leaves
    exactly the diagnostics of the references that are not to a variable
    first defined by a declaration of kind ["type"], in the same order. *)
Theorem typedefs_flag_filters (f c v : bool) (root : ScopeTree.t)
    (sink : list Diagnostic) :
  Forall visitable (allReferences root) ->
  findVariablesInScope (mkOptions f c v false) root sink
  = (Return tt,
     sink ++ flat_map (emitted (mkOptions f c v true))
                      (List.filter (fun r => negb (refersToTypeAlias r))
                                   (allReferences root))).
Proof.
  intros H. rewrite findVariablesInScope_references.
  rewrite (forEach_returns _ _ _ (Forall_visitable_skips _ _ H)).
  rewrite (flat_map_unless refersToTypeAlias _ (emitted (mkOptions f c v true)));
    [reflexivity|].
  apply emitted_typedefs_flag.
Qed.

Lemma typedefs_flag_filters_witness :
  Forall visitable (allReferences Sample.globalTree)
  /\ findVariablesInScope (mkOptions true true true false) Sample.globalTree []
     = (Return tt,
        map diagnosticOf [Sample.fRef; Sample.kRef; Sample.bRef; Sample.cRef; Sample.xRef]).
Proof.
  assert (H : Forall visitable (allReferences Sample.globalTree)).
  { apply Forall_forall. intros r Hr. apply checkVisitable_sound.
    assert (Hall : forallb checkVisitable (allReferences Sample.globalTree) = true)
      by reflexivity.
    rewrite forallb_forall in Hall. apply Hall. apply list_elem_of_In, Hr. }
  split; [exact H|].
  exact (typedefs_flag_filters true true true Sample.globalTree [] H).
Defined.

Lemma emitted_classes_flag (f v t : bool) (reference : Reference.t) :
  emitted (mkOptions f false v t) reference
  = if refersToOuterClass reference then []
    else emitted (mkOptions f true v t) reference.
Proof.
  rewrite !emitted_skips, !skips_asks. unfold refersToOuterClass.
  destruct (asks reference) as [[var|]|e] eqn:Ha; cbn [bindC].
  - apply asks_some in Ha. destruct Ha as (_ & Hres & _). rewrite Hres.
    destruct (Var.defs var) as [|d rest] eqn:Hdefs.
    + rewrite !(isForbidden_no_defs _ _ _ Hdefs). reflexivity.
    + rewrite !(isForbidden_decision _ _ _ d rest Hdefs). unfold decision.
      destruct (String.eqb_spec (Def.type d) "ClassName") as [Hc|Hc].
      * rewrite Hc. cbn. destruct (outerOrTopLevel var reference); reflexivity.
      * cbn [andb]. reflexivity.
  - repeat match goal with |- context [match ?x with _ => _ end] => destruct x end;
      reflexivity.
  - repeat match goal with |- context [match ?x with _ => _ end] => destruct x end;
      reflexivity.
Qed.

Lemma emitted_variables_flag (f c t : bool) (reference : Reference.t) :
  emitted (mkOptions f c false t) reference
  = if refersToOuterVariable t reference then []
    else emitted (mkOptions f c true t) reference.
Proof.
  rewrite !emitted_skips, !skips_asks. unfold refersToOuterVariable.
  destruct (asks reference) as [[var|]|e] eqn:Ha; cbn [bindC].
  - apply asks_some in Ha. destruct Ha as (_ & Hres & _). rewrite Hres.
    destruct (Var.defs var) as [|d rest] eqn:Hdefs.
    + rewrite !(isForbidden_no_defs _ _ _ Hdefs). reflexivity.
    + rewrite !(isForbidden_decision _ _ _ d rest Hdefs). unfold decision.
      destruct (String.eqb_spec (Def.type d) "Variable") as [Hv|Hv].
      * rewrite Hv. cbn.
        destruct (Def.parent d) as [p|]; [|rewrite andb_false_r; reflexivity].
        cbn [functions classes variables typedefs].
        destruct (kindIsType p && negb t); cbn;
          destruct (outerOrTopLevel var reference); reflexivity.
      * cbn [andb].
        destruct (String.eqb (Def.type d) "FunctionName"); [reflexivity|].
        destruct (String.eqb (Def.type d) "ClassName"); reflexivity.
  - repeat match goal with |- context [match ?x with _ => _ end] => destruct x end;
      reflexivity.
  - repeat match goal with |- context [match ?x with _ => _ end] => destruct x end;
      reflexivity.
Qed.

Lemma sample_visitable : Forall visitable (allReferences Sample.globalTree).
Proof.
  apply Forall_forall. intros r Hr. apply checkVisitable_sound.
  assert (Hall : forallb checkVisitable (allReferences Sample.globalTree) = true)
    by reflexivity.
  rewrite forallb_forall in Hall. apply Hall. apply list_elem_of_In, Hr.
Qed.

(** X18: the [classes] field decides about classes referenced from
    another variable scope or declared at top level, and about nothing
    else: on a graph the walk can visit, switching it off leaves exactly
    the diagnostics of the other references, in the same order; a class
    used before its declaration inside its own function is still
    reported. *)
Theorem classes_flag_filters (f v t : bool) (root : ScopeTree.t)
    (sink : list Diagnostic) :
  Forall visitable (allReferences root) ->
  findVariablesInScope (mkOptions f false v t) root sink
  = (Return tt,
     sink ++ flat_map (emitted (mkOptions f true v t))
                      (List.filter (fun r => negb (refersToOuterClass r))
                                   (allReferences root))).
Proof.
  intros H. rewrite findVariablesInScope_references.
  rewrite (forEach_returns _ _ _ (Forall_visitable_skips _ _ H)).
  rewrite (flat_map_unless refersToOuterClass _ (emitted (mkOptions f true v t)));
    [reflexivity|].
  apply emitted_classes_flag.
Qed.

Lemma classes_flag_filters_witness :
  Forall visitable (allReferences Sample.globalTree)
  /\ findVariablesInScope (mkOptions true false true true) Sample.globalTree []
     = (Return tt,
        map diagnosticOf [Sample.fRef; Sample.kRef; Sample.bRef;
                          Sample.cRef; Sample.xRef; Sample.tRef]).
Proof.
  split; [exact sample_visitable|].
  exact (classes_flag_filters true true true Sample.globalTree [] sample_visitable).
Defined.

(** X19: the [variables] field decides about variables referenced from
    another variable scope or declared at top level (type aliases among
    them only while [typedefs] is on), and about nothing else: on a graph
    the walk can visit, switching it off leaves exactly the diagnostics of
    the other references, in the same order. *)
Theorem variables_flag_filters (f c t : bool) (root : ScopeTree.t)
    (sink : list Diagnostic) :
  Forall visitable (allReferences root) ->
  findVariablesInScope (mkOptions f c false t) root sink
  = (Return tt,
     sink ++ flat_map (emitted (mkOptions f c true t))
                      (List.filter (fun r => negb (refersToOuterVariable t r))
                                   (allReferences root))).
Proof.
  intros H. rewrite findVariablesInScope_references.
  rewrite (forEach_returns _ _ _ (Forall_visitable_skips _ _ H)).
  rewrite (flat_map_unless (refersToOuterVariable t) _ (emitted (mkOptions f c true t)));
    [reflexivity|].
  apply emitted_variables_flag.
Qed.

Lemma variables_flag_filters_witness :
  Forall visitable (allReferences Sample.globalTree)
  /\ findVariablesInScope (mkOptions true true false true) Sample.globalTree []
     = (Return tt,
        map diagnosticOf [Sample.fRef; Sample.cRef; Sample.xRef; Sample.tRef]).
Proof.
  split; [exact sample_visitable|].
  exact (variables_flag_filters true true true Sample.globalTree [] sample_visitable).
Defined.

(** ** The report condition *)

(** On a reference the callback can visit its condition evaluates, and it
    is false exactly for an eligible reference. *)
Lemma skips_eligible_visitable (options : Options) (reference : Reference.t) :
  visitable reference ->
  exists b, skips options reference = Return b
            /\ (b = false <-> eligible options reference).
Proof.
  intros Hvis. unfold skips, eligible.
  destruct (Reference.init reference) eqn:Hinit.
  { exists true. split; [reflexivity|]. split; [discriminate|]. intros [H _]. discriminate H. }
  destruct (Reference.resolved reference) as [variable|] eqn:Hres.
  2:{ exists true. split; [reflexivity|]. split; [discriminate|].
      intros (_ & v & Hv & _). discriminate Hv. }
  destruct (Var.identifiers variable) as [|id0 rest] eqn:Hid.
  { exists true. split; [reflexivity|]. split; [discriminate|].
    intros (_ & v & Hv & i & l & Hi & _). injection Hv as <-. congruence. }
  destruct (Hvis Hinit variable id0 rest Hres Hid) as [Hnest Hcl].
  destruct (isInInitializer_returns variable reference) as [bi Hbi];
    [congruence | exact Hnest |].
  destruct (isForbidden_classifiable options variable reference Hcl) as [bf Hbf].
  rewrite Hbi, Hbf. cbn [bindC]. unfold endOf.
  destruct (Z.ltb_spec (snd (Node.range id0))
              (snd (Node.range (Reference.identifier reference)))) as [Hlt|Hge].
  - destruct bi; cbn [negb].
    + exists (negb bf). split; [reflexivity|]. split.
      * intros Hb. apply negb_false_iff in Hb. subst bf.
        split; [reflexivity|]. exists variable. split; [reflexivity|].
        exists id0, rest. split; [exact Hid|]. split; [|exact Hbf].
        intros [_ H]. rewrite Hbi in H. discriminate H.
      * intros (_ & v & Hv & _ & _ & _ & _ & Hf). injection Hv as <-.
        rewrite Hbf in Hf. injection Hf as ->. reflexivity.
    + exists true. split; [reflexivity|]. split; [discriminate|].
      intros (_ & v & Hv & i & l & Hi & Hnot & _). injection Hv as <-.
      rewrite Hid in Hi. injection Hi as <- <-.
      exfalso. apply Hnot. split; [exact Hlt | exact Hbi].
  - cbn [bindC]. exists (negb bf). split; [reflexivity|]. split.
    + intros Hb. apply negb_false_iff in Hb. subst bf.
      split; [reflexivity|]. exists variable. split; [reflexivity|].
      exists id0, rest. split; [exact Hid|]. split; [|exact Hbf].
      intros [H _]. lia.
    + intros (_ & v & Hv & _ & _ & _ & _ & Hf). injection Hv as <-.
      rewrite Hbf in Hf. injection Hf as ->. reflexivity.
Qed.

Lemma emitted_eligible (options : Options) (reference : Reference.t) :
  visitable reference ->
  (emitted options reference = [diagnosticOf reference] <-> eligible options reference)
  /\ (emitted options reference = [] <-> ~ eligible options reference).
Proof.
  intros Hvis.
  destruct (skips_eligible_visitable options reference Hvis) as (b & Hb & Hiff).
  destruct (emitted_cases options reference) as [[Hs He]|[Hs He]]; rewrite He.
  - assert (Hel : eligible options reference).
    { apply Hiff. congruence. }
    split; split; intros H; try assumption; try reflexivity;
      [discriminate H | contradiction].
  - assert (Hnel : ~ eligible options reference).
    { intros Hel. apply Hiff in Hel. congruence. }
    split; split; intros H; try assumption; try reflexivity;
      [discriminate H | contradiction].
Qed.

(** C1: on a graph the walk can visit (every reference that is no
    initialization and is resolved to a variable with an identifier has
    nested declarators and a first definition that can be classified;
    definitions of functions, classes, parameters need no parent) the walk
    emits, scope by scope in pre-order and reference by reference, the
    diagnostic of a reference exactly when the reference is not an
    initialization, is resolved to a variable with an identifier, is not
    preceded by the variable's first identifier outside its initializer,
    and is forbidden; it emits nothing for an initialization and nothing
    for an unresolved reference. *)
Theorem reported_iff_eligible (options : Options) (root : ScopeTree.t)
    (sink : list Diagnostic) :
  Forall visitable (allReferences root) ->
  findVariablesInScope options root sink =
    (Return tt,
     sink ++ flat_map (fun scope => flat_map (emitted options) (ScopeTree.references scope))
                      (preorder root))
  /\ forall scope r,
       In scope (preorder root) -> In r (ScopeTree.references scope) ->
       (emitted options r = [diagnosticOf r] <-> eligible options r)
       /\ (emitted options r = [] <-> ~ eligible options r)
       /\ (Reference.init r = true -> emitted options r = [])
       /\ (Reference.resolved r = None -> emitted options r = []).
Proof.
  intros Hvis. split.
  - rewrite findVariablesInScope_references.
    rewrite (forEach_returns _ _ _ (Forall_visitable_skips _ _ Hvis)).
    unfold allReferences. rewrite flat_map_nested. reflexivity.
  - intros scope r Hs Hr.
    assert (Hr' : visitable r).
    { rewrite Forall_forall in Hvis.
      apply Hvis, list_elem_of_In, (In_allReferences root scope r Hs Hr). }
    destruct (emitted_eligible options r Hr') as [H1 H2].
    split; [exact H1|]. split; [exact H2|].
    split; [apply emitted_init | apply emitted_unresolved].
Qed.

Lemma reported_iff_eligible_witness :
  Forall visitable (allReferences Sample.globalTree)
  /\ findVariablesInScope allEnabled Sample.globalTree [] =
       (Return tt,
        map diagnosticOf [Sample.fRef; Sample.kRef; Sample.bRef;
                          Sample.cRef; Sample.xRef; Sample.tRef])
  /\ (emitted allEnabled Sample.fRef = [diagnosticOf Sample.fRef]
       <-> eligible allEnabled Sample.fRef)
  /\ (emitted (mkOptions false true true true) Sample.fRef = []
       <-> ~ eligible (mkOptions false true true true) Sample.fRef).
Proof.
  split; [exact sample_visitable|].
  destruct (reported_iff_eligible allEnabled Sample.globalTree [] sample_visitable)
    as [Hrun Href].
  split; [exact Hrun|]. split.
  - apply (Href Sample.globalTree Sample.fRef); cbn; tauto.
  - destruct (reported_iff_eligible (mkOptions false true true true)
                Sample.globalTree [] sample_visitable) as [_ Href'].
    apply (Href' Sample.globalTree Sample.fRef); cbn; tauto.
Defined.

(** An array, too, is an object [parseOptions] reads the fields from. *)
Example parseOptions_array :
  parseOptions (JsArray [] {[ "classes" := JsBoolean false ]})
  = mkOptions true false true true.
Proof. vm_compute. reflexivity. Qed.
